(** * Embedding retriever: TF-IDF index, query expansion, boosting, ranking

    A shallow embedding of [server/lib/embedding_retriever.py]
    (class [EmbeddingRetriever]) and the properties its specification
    states about it.

    Conventions of the embedding.
    - A Python [str] is a [string]; its characters are the code points
      U+0000..U+00FF (Latin-1), which is where [str.lower] and the regular
      expression classes are spelled out below.
    - A Python [float] score is a rational number [Q] (every finite double
      is one; infinities and NaN are not held).  A product of two doubles
      is the exact product rounded to the nearest double, ties to even
      ([Binary64.fmul]); the result is right as long as it does not
      overflow, which cosine scores times boost factors never do.  The
      floating-point kernels of scikit-learn (logarithm, square root,
      sparse dot product) are parameters of the development, as is
      numpy's [argsort], which is known only through its contract.  What
      the kernels compute when nothing rounds is written out over the
      reals in [ExactKernels], and what the normalisation and the dot
      product compute in binary64 over the primitive floats in
      [FloatKernels].
    - scikit-learn and numpy are libraries, not part of the program: the
      vectorizer is written out as far as the program depends on it (the
      analyzer, the vocabulary with its pruning, the errors a fit raises,
      one row per text), following the library's documented behaviour.
    - A Python exception is a value of [exn]; a method that may raise
      returns a [result], and a method of the retriever is a function from
      the retriever's attributes to a result and the attributes afterwards. *)

From Stdlib Require Import List String Ascii Bool Arith ZArith QArith Reals.
From Stdlib Require Import Lia Psatz.
From Stdlib Require Import Sorted.
From Stdlib Require Import Qround Qpower.
From Stdlib Require Qabs.
From Stdlib Require Floats.
Import ListNotations.

Open Scope string_scope.
Open Scope list_scope.
Open Scope nat_scope.

(** ** Python strings *)

Module PyStr.

(** [str.lower] on one Latin-1 character: A-Z, and the accented capitals
    U+00C0..U+00DE without the multiplication sign U+00D7. *)
Definition lower_char (c : ascii) : ascii :=
  let n := nat_of_ascii c in
  if ((65 <=? n) && (n <=? 90)) || ((192 <=? n) && (n <=? 222) && negb (n =? 215))
  then ascii_of_nat (n + 32)
  else c.

Fixpoint lower (s : string) : string :=
  match s with
  | EmptyString => EmptyString
  | String c s' => String (lower_char c) (lower s')
  end.

(** [s.startswith(p)]. *)
Fixpoint startswith (p s : string) : bool :=
  match p, s with
  | EmptyString, _ => true
  | String a p', String b s' => Ascii.eqb a b && startswith p' s'
  | String _ _, EmptyString => false
  end.

(** [sub in s]: [sub] occurs in [s] as a contiguous substring. *)
Fixpoint contains (sub s : string) : bool :=
  startswith sub s ||
  match s with
  | EmptyString => false
  | String _ s' => contains sub s'
  end.

(** The scan of [s.replace(old, new)] for a non-empty [old]: left to
    right, occurrences do not overlap; [skip] counts the characters of
    the occurrence just replaced that are still to be passed over. *)
Fixpoint replace_scan (old new : string) (skip : nat) (s : string) : string :=
  match s with
  | EmptyString => EmptyString
  | String c s' =>
      match skip with
      | S k => replace_scan old new k s'
      | O =>
          if startswith old s
          then (new ++ replace_scan old new (String.length old - 1) s')%string
          else String c (replace_scan old new 0 s')
      end
  end.

(** With an empty [old], Python puts [new] before every character and at
    the end. *)
Fixpoint intersperse (new s : string) : string :=
  match s with
  | EmptyString => new
  | String c s' => (new ++ String c (intersperse new s'))%string
  end.

Definition replace (old new s : string) : string :=
  match old with
  | EmptyString => intersperse new s
  | String _ _ => replace_scan old new 0 s
  end.

(** No occurrence of [old] starts at one of the first [n] positions. *)
Fixpoint no_match_before (old : string) (n : nat) (s : string) : bool :=
  match n, s with
  | O, _ => true
  | S m, EmptyString => true
  | S m, String _ s' => negb (startswith old s) && no_match_before old m s'
  end.

End PyStr.

Export PyStr.

(** ** Query expander: [_enhance_query_for_retrieval] *)

(** The dictionaries of the method, in insertion order (the order in which
    a Python [dict] is iterated). *)
Definition state_mapping : list (string * string) :=
  [ ("colorado", "CO"); ("co", "CO");
    ("california", "CA"); ("ca", "CA");
    ("alabama", "AL"); ("al", "AL");
    ("texas", "TX"); ("tx", "TX");
    ("florida", "FL"); ("fl", "FL");
    ("new york", "NY"); ("ny", "NY") ].

Definition health_mapping : list (string * string) :=
  [ ("obesity", "OBESITY obesity obese overweight");
    ("diabetes", "DIABETES diabetes diabetic");
    ("heart disease", "CHD coronary heart disease");
    ("stroke", "STROKE cerebrovascular");
    ("depression", "MHLTH mental health depression");
    ("asthma", "CASTHMA asthma respiratory") ].

(** One turn of the loop [for state_name, abbrev in state_mapping.items()]. *)
Definition apply_state (processed : string) (entry : string * string) : string :=
  let '(state_name, abbrev) := entry in
  if contains state_name processed
  then replace state_name (abbrev ++ " " ++ state_name)%string processed
  else processed.

Definition apply_state_mappings (processed : string) : string :=
  fold_left apply_state state_mapping processed.

(** One turn of the loop [for condition, expanded in health_mapping.items()]. *)
Definition apply_health (processed : string) (entry : string * string) : string :=
  let '(condition, expanded) := entry in
  if contains condition processed
  then replace condition expanded processed
  else processed.

Definition apply_health_mappings (processed : string) : string :=
  fold_left apply_health health_mapping processed.

Definition add_context_keywords (processed : string) : string :=
  let p1 := if contains "county" processed
            then (processed ++ " CountyName CountyFIPS")%string else processed in
  let p2 := if contains "state" p1
            then (p1 ++ " StateAbbr StateName")%string else p1 in
  if existsb (fun word => contains word p2) ["data"; "information"; "statistics"]
  then (p2 ++ " TotalPopulation Data_Value Measure")%string else p2.

Definition _enhance_query_for_retrieval (query : string) : string :=
  add_context_keywords (apply_health_mappings (apply_state_mappings (lower query))).


(** ** Lexical vectorizer: the analyzer of [TfidfVectorizer]

    The constructor configures [lowercase=True],
    [token_pattern=r'\b[A-Za-z]{2,}\b'], [stop_words='english'] and
    [ngram_range=(1, 3)].  The analyzer lower-cases the text, takes
    [token_pattern.findall], removes the stop words and builds the word
    n-grams. *)

Module Analyzer.

(** The class [[A-Za-z]]. *)
Definition is_alpha (c : ascii) : bool :=
  let n := nat_of_ascii c in
  ((65 <=? n) && (n <=? 90)) || ((97 <=? n) && (n <=? 122)).

(** The class [\w] of a [str] pattern on Latin-1: letters, digits
    (with the superscripts and vulgar fractions, which [str.isalnum]
    accepts) and the underscore. *)
Definition is_word (c : ascii) : bool :=
  let n := nat_of_ascii c in
  is_alpha c || ((48 <=? n) && (n <=? 57)) || (n =? 95)
  || (n =? 170) || (n =? 178) || (n =? 179) || (n =? 181) || (n =? 185) || (n =? 186)
  || ((188 <=? n) && (n <=? 190))
  || ((192 <=? n) && (n <=? 214)) || ((216 <=? n) && (n <=? 246)) || (248 <=? n).

Definition is_word_opt (c : option ascii) : bool :=
  match c with
  | Some c => is_word c
  | None => false
  end.

(** [\b] between the character before the position ([None] at the start
    of the text) and the character at the position ([None] at its end). *)
Definition word_boundary (prev next : option ascii) : bool :=
  xorb (is_word_opt prev) (is_word_opt next).

Definition head (s : string) : option ascii :=
  match s with
  | EmptyString => None
  | String c _ => Some c
  end.

(** Length of the longest prefix in [[A-Za-z]*]: what the greedy
    quantifier first takes. *)
Fixpoint alpha_run (s : string) : nat :=
  match s with
  | EmptyString => 0
  | String c s' => if is_alpha c then S (alpha_run s') else 0
  end.

(** The quantifier [{2,}] gives characters back one at a time until the
    closing [\b] holds; [n] is the number of letters still taken. *)
Fixpoint backtrack (n : nat) (s : string) : option string :=
  match n with
  | O => None
  | S m =>
      if (2 <=? n) && word_boundary (String.get m s) (String.get n s)
      then Some (String.substring 0 n s)
      else backtrack m s
  end.

(** A match of the pattern starting exactly at the head of [s], where
    [prev] is the character before it. *)
Definition match_token (prev : option ascii) (s : string) : option string :=
  if word_boundary prev (head s) then backtrack (alpha_run s) s else None.

(** [findall]: matches from left to right, the search resuming after
    each match ([skip] characters of the last match remain) and one
    character further after a failure. *)
Fixpoint findall_tokens (prev : option ascii) (skip : nat) (s : string) : list string :=
  match s with
  | EmptyString => []
  | String c s' =>
      match skip with
      | S k => findall_tokens (Some c) k s'
      | O =>
          match match_token prev s with
          | Some tok => tok :: findall_tokens (Some c) (String.length tok - 1) s'
          | None => findall_tokens (Some c) 0 s'
          end
      end
  end.

Definition tokenize (doc : string) : list string := findall_tokens None 0 doc.

Definition mem (w : string) (l : list string) : bool :=
  existsb (String.eqb w) l.

(** Every window of [n] consecutive tokens, joined by one space. *)
Fixpoint windows (n : nat) (tokens : list string) : list string :=
  match tokens with
  | [] => []
  | _ :: rest =>
      if n <=? List.length tokens
      then String.concat " " (firstn n tokens) :: windows n rest
      else []
  end.

(** [_word_ngrams] for [ngram_range=(1, 3)]: stop words go first, then
    the 1-grams, the 2-grams and the 3-grams follow one another. *)
Definition word_ngrams (stop_words tokens : list string) : list string :=
  let original_tokens := filter (fun w => negb (mem w stop_words)) tokens in
  original_tokens ++ windows 2 original_tokens ++ windows 3 original_tokens.

Definition analyze (stop_words : list string) (doc : string) : list string :=
  word_ngrams stop_words (tokenize (lower doc)).

(** *** The tokens as the specification words them *)

(** The maximal non-empty runs of letters of [s], each with the
    character before it and the character after it. *)
Fixpoint alpha_segments (prev : option ascii) (skip : nat) (s : string)
  : list (option ascii * string * option ascii) :=
  match s with
  | EmptyString => []
  | String c s' =>
      match skip with
      | S k => alpha_segments (Some c) k s'
      | O =>
          if is_alpha c
          then (prev, String.substring 0 (alpha_run s) s, String.get (alpha_run s) s)
                 :: alpha_segments (Some c) (alpha_run s - 1) s'
          else alpha_segments (Some c) 0 s'
      end
  end.

Definition run_of (seg : option ascii * string * option ascii) : string :=
  snd (fst seg).

(** "Maximal runs of alphabetic characters of length >= 2", case-folded. *)
Definition alpha_runs_spec (doc : string) : list string :=
  map run_of
    (filter (fun seg => 2 <=? String.length (run_of seg))
       (alpha_segments None 0 (lower doc))).

(** The runs that are, besides, not glued to a word character (a digit,
    an underscore, a letter outside A-Z and a-z) on either side. *)
Definition delimited (seg : option ascii * string * option ascii) : bool :=
  let '(before, run, after) := seg in
  (2 <=? String.length run) && negb (is_word_opt before) && negb (is_word_opt after).

Definition delimited_runs (doc : string) : list string :=
  map run_of (filter delimited (alpha_segments None 0 (lower doc))).

End Analyzer.

Export Analyzer.

(** ** Exceptions and the retriever's attributes *)

Inductive exn : Type :=
| ValueError (msg : string)
| IndexError (msg : string)
| NotFittedError (msg : string).

Inductive result (A : Type) : Type :=
| Ok (a : A)
| Raise (e : exn).

Arguments Ok {A} a.
Arguments Raise {A} e.

(** The dataclass [Document]; the metadata dictionary keeps its insertion
    order, its values are the stringified cells. *)
Record Document : Type := mkDocument {
  page_content : string;
  metadata : list (string * string)
}.

(** A sparse matrix, row by row, and a vector of scores. *)
Definition matrix : Type := list (list Q).

(** What a fit leaves in a [TfidfVectorizer]: [vocabulary_], the feature
    names in column order, and in its transformer [self._tfidf] the
    inverse document frequency of each.  [idf_] is [None] while the
    transformer is a fresh one that has not been fitted. *)
Record Fitted : Type := mkFitted {
  vocabulary_ : list string;
  idf_ : option (list Q)
}.

(** The [TfidfVectorizer] of the constructor: its [max_features], and
    what the fits have left in it ([None] until one has succeeded). *)
Record TfidfVectorizer : Type := mkVectorizer {
  max_features : nat;
  fitted : option Fitted
}.

(** The attributes of an [EmbeddingRetriever]: [self.vectorizer],
    [self.embeddings] ([None] as the constructor leaves it) and
    [self.documents]. *)
Record EmbeddingRetriever : Type := mkRetriever {
  vectorizer : TfidfVectorizer;
  embeddings : option matrix;
  documents : list Document
}.

(** [EmbeddingRetriever(max_features)]. *)
Definition new_retriever (max_features : nat) : EmbeddingRetriever :=
  {| vectorizer := {| max_features := max_features; fitted := None |};
     embeddings := None; documents := [] |}.

(** A method: from the attributes before the call to what it returns or
    raises and the attributes after it.  An exception keeps the
    assignments made before it was raised. *)
Definition M (A : Type) : Type :=
  EmbeddingRetriever -> result A * EmbeddingRetriever.

Definition ret {A : Type} (a : A) : M A := fun self => (Ok a, self).

Definition raise {A : Type} (e : exn) : M A := fun self => (Raise e, self).

Definition bind {A B : Type} (m : M A) (f : A -> M B) : M B :=
  fun self =>
    match m self with
    | (Ok a, self') => f a self'
    | (Raise e, self') => (Raise e, self')
    end.

Definition get_self : M EmbeddingRetriever := fun self => (Ok self, self).

Definition lift {A : Type} (r : result A) : M A := fun self => (r, self).

Definition set_documents (docs : list Document) : M unit :=
  fun self =>
    (Ok tt, {| vectorizer := vectorizer self;
               embeddings := embeddings self; documents := docs |}).

Definition set_embeddings (X : matrix) : M unit :=
  fun self =>
    (Ok tt, {| vectorizer := vectorizer self;
               embeddings := Some X; documents := documents self |}).

Definition set_fitted (v : Fitted) : M unit :=
  fun self =>
    (Ok tt, {| vectorizer := {| max_features := max_features (vectorizer self);
                               fitted := Some v |};
               embeddings := embeddings self; documents := documents self |}).

(** [self._tfidf = TfidfTransformer(...)]: the vectorizer gets a fresh
    transformer, not fitted; its vocabulary stays. *)
Definition fresh_tfidf (v : TfidfVectorizer) : TfidfVectorizer :=
  {| max_features := max_features v;
     fitted := option_map
                 (fun f => {| vocabulary_ := vocabulary_ f; idf_ := None |})
                 (fitted v) |}.

Definition reset_tfidf : M unit :=
  fun self =>
    (Ok tt, {| vectorizer := fresh_tfidf (vectorizer self);
               embeddings := embeddings self; documents := documents self |}).

Declare Scope py_scope.
Delimit Scope py_scope with py.
Notation "x <- m ;; k" := (bind m (fun x => k))
  (at level 61, m at next level, right associativity) : py_scope.
Notation "m ;; k" := (bind m (fun _ => k))
  (at level 61, right associativity) : py_scope.

(** Run a method and keep the value or the state. *)
Definition returned {A : Type} (m : M A) (self : EmbeddingRetriever) : result A :=
  fst (m self).
Definition state_after {A : Type} (m : M A) (self : EmbeddingRetriever)
  : EmbeddingRetriever :=
  snd (m self).

(** ** Products of doubles

    numpy multiplies in binary64: the exact product is rounded to the
    nearest number [m * 2^e] with [|m| < 2^53] and [e >= -1074], ties to
    the even [m].  Overflow, which would give an infinity, is not held. *)

Module Binary64.

Local Open Scope Q_scope.

Definition pow2 (e : Z) : Q := 2 ^ e.

(** The integer part of the binary logarithm of a positive number. *)
Definition ilog2 (x : Q) : Z :=
  let l := (Z.log2 (Qnum x) - Z.log2 (Zpos (Qden x)))%Z in
  if Qle_bool (pow2 l) x then l else (l - 1)%Z.

(** The nearest integer, ties to even. *)
Definition rhe (q : Q) : Z :=
  let f := Qfloor q in
  match Qcompare (q - inject_Z f) (1 # 2) with
  | Lt => f
  | Gt => (f + 1)%Z
  | Eq => if Z.even f then f else (f + 1)%Z
  end.

(** The exponent of the unit in the last place: 53 bits of mantissa,
    and no exponent below that of the subnormal numbers. *)
Definition exponent (x : Q) : Z := Z.max (ilog2 (Qabs.Qabs x) - 52) (-1074).

(** The nearest double. *)
Definition round64 (x : Q) : Q :=
  let e := exponent x in
  Qred (inject_Z (rhe (x / pow2 e)) * pow2 e).

(** [x * y] on two doubles. *)
Definition fmul (x y : Q) : Q := round64 (x * y).

(** The numbers of the format. *)
Definition is_double (x : Q) : Prop := round64 x == x.

End Binary64.

Export Binary64.

(** ** Context booster: [_apply_context_boost] *)

Definition states : list string :=
  ["colorado"; "california"; "alabama"; "texas"; "florida"; "co"; "ca"; "al"; "tx"; "fl"].

Definition health_terms : list string :=
  ["obesity"; "diabetes"; "heart"; "stroke"; "depression"; "asthma"].

Definition location_terms : list string :=
  ["county"; "state"; "region"; "area"].

(** The literals [1.5], [1.3], [1.2] and [0.7] of the source, as the
    doubles Python reads them: [0x1.8p+0], [0x1.4cccccccccccdp+0],
    [0x1.3333333333333p+0] and [0x1.6666666666666p-1]. *)
Definition boost_state : Q := 3 # 2.
Definition boost_health : Q := 5854679515581645 # 4503599627370496.
Definition boost_location : Q := 5404319552844595 # 4503599627370496.
Definition penalty_county : Q := 3152519739159347 # 4503599627370496.

(** The inner loops [for state in states] and [for health in
    health_terms]: one multiplication per term found on both sides. *)
Definition boost_terms (by_factor : Q) (terms : list string)
  (query_lower doc_content : string) (boost_factor : Q) : Q :=
  fold_left
    (fun factor term =>
       if contains term query_lower && contains term doc_content
       then fmul factor by_factor else factor)
    terms boost_factor.

(** The body of the loop over the documents, up to the final product. *)
Definition boost_factor (query_lower doc_content : string) : Q :=
  let f0 := 1%Q in
  let f1 := boost_terms boost_state states query_lower doc_content f0 in
  let f2 := boost_terms boost_health health_terms query_lower doc_content f1 in
  let f3 := if existsb (fun loc => contains loc query_lower) location_terms
               && existsb (fun loc => contains loc doc_content) location_terms
            then fmul f2 boost_location else f2 in
  if contains "county" query_lower && negb (contains "county" doc_content)
  then fmul f3 penalty_county else f3.

(** [a[i] = x] on an array: out of range is reported to the caller. *)
Fixpoint set_nth {A : Type} (i : nat) (x : A) (l : list A) : list A :=
  match l, i with
  | [], _ => []
  | _ :: l', O => x :: l'
  | y :: l', S j => y :: set_nth j x l'
  end.

(** [for i, doc in enumerate(self.documents): ... boosted[i] *= boost_factor]:
    numpy raises [IndexError] when the store is longer than the vector. *)
Fixpoint boost_loop (query_lower : string) (docs : list Document) (i : nat)
  (boosted : list Q) : result (list Q) :=
  match docs with
  | [] => Ok boosted
  | doc :: rest =>
      match nth_error boosted i with
      | None => Raise (IndexError "index out of bounds")
      | Some x =>
          boost_loop query_lower rest (S i)
            (set_nth i (fmul x (boost_factor query_lower (lower (page_content doc)))) boosted)
      end
  end.

Definition _apply_context_boost (similarities : list Q) (query : string)
  : M (list Q) :=
  fun self =>
    let boosted := similarities in
    let query_lower := lower query in
    (boost_loop query_lower (documents self) 0 boosted, self).

(** ** Ranker: the end of [retrieve] *)

(** The slice [a[start:]] for any integer [start]. *)
Definition slice_from {A : Type} (start : Z) (a : list A) : list A :=
  let n := Z.of_nat (List.length a) in
  let first := if (start <? 0)%Z then Z.max 0 (n + start) else Z.min start n in
  skipn (Z.to_nat first) a.

Definition Qpositive (x : Q) : bool := negb (Qle_bool x 0).

(** The loop [for idx in top_indices] with its test
    [idx < len(self.documents) and boosted_similarities[idx] > 0]. *)
Fixpoint collect_results (docs : list Document) (boosted : list Q)
  (top_indices : list nat) : result (list (Document * Q)) :=
  match top_indices with
  | [] => Ok []
  | idx :: rest =>
      match nth_error docs idx with
      | None => collect_results docs boosted rest
      | Some doc =>
          match nth_error boosted idx with
          | None => Raise (IndexError "index out of bounds")
          | Some score =>
              if Qpositive score
              then match collect_results docs boosted rest with
                   | Ok results => Ok ((doc, score) :: results)
                   | Raise e => Raise e
                   end
              else collect_results docs boosted rest
          end
      end
  end.

(** The indices that loop keeps, in the order it meets them. *)
Definition kept_indices (docs : list Document) (boosted : list Q)
  (top_indices : list nat) : list nat :=
  filter
    (fun idx =>
       (idx <? List.length docs) && Qpositive (nth idx boosted 0%Q))
    top_indices.

Section Retrieval.

(** scikit-learn's list [ENGLISH_STOP_WORDS]. *)
Variable stop_words : list string.

(** The floating-point kernels of scikit-learn: the smoothed inverse
    document frequency [log((1 + n) / (1 + df)) + 1] of a term found in
    [df] of [n] documents; the row of [TfidfTransformer] for the term
    counts of one text (sublinear [1 + log(count)], times [idf_], divided
    by the Euclidean norm); and one entry of [cosine_similarity]. *)
Variable idf_weight : nat -> nat -> Q.
Variable tfidf_row : list Q -> list nat -> list Q.
Variable cosine : list Q -> list Q -> Q.

(** numpy's [argsort] with the default [kind], which promises the
    indices in ascending order of the values and nothing about ties. *)
Variable argsort : list Q -> list nat.

(** *** [fit_transform] and [transform] *)

Definition count_term (t : string) (terms : list string) : nat :=
  List.length (filter (String.eqb t) terms).

Fixpoint dedup (seen terms : list string) : list string :=
  match terms with
  | [] => []
  | t :: rest => if mem t seen then dedup seen rest else t :: dedup (t :: seen) rest
  end.

Fixpoint insert_term (t : string) (sorted : list string) : list string :=
  match sorted with
  | [] => [t]
  | u :: rest => if String.leb t u then t :: sorted else u :: insert_term t rest
  end.

Definition sort_terms (terms : list string) : list string :=
  fold_right insert_term [] terms.

Definition document_frequency (t : string) (analyzed : list (list string)) : nat :=
  List.length (filter (mem t) analyzed).

Definition total_count (t : string) (analyzed : list (list string)) : nat :=
  list_sum (map (count_term t) analyzed).

(** [_limit_features] with [max_df=0.95], [min_df=1] and the retriever's
    [max_features]: [high] is [0.95 * n_doc], [low] is 1; when more terms
    than [limit] pass, the [limit] most frequent ones stay. *)
Definition limit_features (limit n_doc : nat) (analyzed : list (list string))
  (vocabulary : list string) : list string :=
  let df t := document_frequency t analyzed in
  let passing := filter (fun t => (100 * df t <=? 95 * n_doc) && (1 <=? df t)) vocabulary in
  if limit <? List.length passing
  then
    let tfs := map (fun t => (- inject_Z (Z.of_nat (total_count t analyzed)))%Q) passing in
    let mask_inds := firstn limit (argsort tfs) in
    map snd
      (filter (fun it => existsb (Nat.eqb (fst it)) mask_inds)
         (combine (seq 0 (List.length passing)) passing))
  else passing.

(** [TfidfVectorizer.fit_transform(raw_documents)]: it installs a fresh
    transformer, builds and prunes the vocabulary, which is where it may
    raise, and only then assigns [vocabulary_] and fits the transformer. *)
Definition fit_transform (raw_documents : list string) : M matrix :=
  (reset_tfidf ;;
   self <- get_self ;;
   let analyzed := map (analyze stop_words) raw_documents in
   let vocabulary := dedup [] (List.concat analyzed) in
   match vocabulary with
   | [] => raise (ValueError "empty vocabulary; perhaps the documents only contain stop words")
   | _ :: _ =>
       let n_doc := List.length raw_documents in
       if 95 * n_doc <? 100 * 1
       then raise (ValueError "max_df corresponds to < documents than min_df")
       else
         let kept := limit_features (max_features (vectorizer self)) n_doc analyzed (sort_terms vocabulary) in
         match kept with
         | [] => raise (ValueError "After pruning, no terms remain. Try a lower min_df or a higher max_df.")
         | _ :: _ =>
             let idf := map (fun t => idf_weight n_doc (document_frequency t analyzed)) kept in
             set_fitted {| vocabulary_ := kept; idf_ := Some idf |} ;;
             ret (map (fun terms => tfidf_row idf (map (fun t => count_term t terms) kept)) analyzed)
         end
   end)%py.

(** [TfidfVectorizer.transform([text])], the one row of its result.
    Without a vocabulary the vectorizer raises [NotFittedError]; with a
    vocabulary and a fresh transformer the counts are taken and the
    transformer raises it (the text of its message is that of
    scikit-learn 1.0 to 1.3). *)
Definition transform (text : string) : M (list Q) :=
  (self <- get_self ;;
   match fitted (vectorizer self) with
   | None => raise (NotFittedError "The TF-IDF vectorizer is not fitted")
   | Some v =>
       let terms := analyze stop_words text in
       let counts := map (fun t => count_term t terms) (vocabulary_ v) in
       match idf_ v with
       | None => raise (NotFittedError "idf vector is not fitted")
       | Some idf => ret (tfidf_row idf counts)
       end
   end)%py.

(** [cosine_similarity(query_embedding, embeddings).flatten()]: the
    shapes are validated, then there is one score per row. *)
Definition cosine_similarity (query_embedding : list Q) (X : matrix) : result (list Q) :=
  match X, query_embedding with
  | [], _ => Raise (ValueError "Found array with 0 sample(s)")
  | _, [] => Raise (ValueError "Found array with 0 feature(s)")
  | _, _ =>
      if forallb (fun row => List.length row =? List.length query_embedding) X
      then Ok (map (cosine query_embedding) X)
      else Raise (ValueError "Incompatible dimension for X and Y matrices")
  end.

(** *** [add_documents] *)

Definition add_documents (docs : list Document) : M unit :=
  (let texts := map page_content docs in
   self <- get_self ;;
   set_documents (documents self ++ docs) ;;
   self <- get_self ;;
   match embeddings self with
   | None =>
       X <- fit_transform texts ;;
       set_embeddings X
   | Some _ =>
       let all_texts := map page_content (documents self) in
       X <- fit_transform all_texts ;;
       set_embeddings X
   end)%py.

(** *** [retrieve] *)

Definition top_indices (boosted : list Q) (k : Z) : list nat :=
  rev (slice_from (- k) (argsort boosted)).

Definition retrieve (query : string) (k : Z) : M (list (Document * Q)) :=
  (self <- get_self ;;
   match documents self, embeddings self with
   | [], _ => ret []
   | _ :: _, None => ret []
   | _ :: _, Some X =>
       let processed_query := _enhance_query_for_retrieval query in
       query_embedding <- transform processed_query ;;
       similarities <- lift (cosine_similarity query_embedding X) ;;
       boosted_similarities <- _apply_context_boost similarities query ;;
       self <- get_self ;;
       lift (collect_results (documents self) boosted_similarities
               (top_indices boosted_similarities k))
   end)%py.

(** The part of [main] between reading the rows and formatting the
    prompt: the retriever is used only when rows were read. *)
Definition main_core (docs : list Document) (question : string) (top_k : Z)
  : M (option (list (Document * Q))) :=
  match docs with
  | [] => ret None
  | _ :: _ =>
      (add_documents docs ;;
       results <- retrieve question top_k ;;
       ret (Some results))%py
  end.

End Retrieval.

(** ** Instances used to run the model

    A stable [argsort] by insertion, which is what numpy does with
    [kind='stable'] and what its default does on short arrays; and
    rational stand-ins for the three float kernels: every inverse
    document frequency is 1, a row is the vector of its term counts, a
    score is the plain dot product.  The theorems below hold for every
    choice of the kernels; the stand-ins only let the examples compute. *)

Fixpoint insert_index (v : list Q) (i : nat) (sorted : list nat) : list nat :=
  match sorted with
  | [] => [i]
  | j :: rest =>
      if Qle_bool (nth i v 0%Q) (nth j v 0%Q)
      then i :: sorted
      else j :: insert_index v i rest
  end.

Definition stable_argsort (v : list Q) : list nat :=
  fold_right (insert_index v) [] (seq 0 (List.length v)).

Definition unit_idf (n_doc df : nat) : Q := 1%Q.

Definition count_row (idf : list Q) (counts : list nat) : list Q :=
  map (fun c => inject_Z (Z.of_nat c)) counts.

Fixpoint dot (x y : list Q) : Q :=
  match x, y with
  | a :: x', b :: y' => (a * b + dot x' y')%Q
  | _, _ => 0%Q
  end.

(** A few entries of scikit-learn's stop word list. *)
Definition stop_words_excerpt : list string :=
  ["the"; "and"; "is"; "in"; "of"; "what"; "to"; "about"].

Definition run_add_documents := add_documents stop_words_excerpt unit_idf count_row stable_argsort.
Definition run_retrieve := retrieve stop_words_excerpt count_row dot stable_argsort.
Definition run_main_core := main_core stop_words_excerpt unit_idf count_row dot stable_argsort.

(** ** Vocabulary of the statements *)

(** The pair the ranker builds for the index [idx]. *)
Definition no_document : Document := mkDocument "" [].

Definition pair_at (docs : list Document) (boosted : list Q) (idx : nat)
  : Document * Q :=
  (nth idx docs no_document, nth idx boosted 0%Q).

(** Indices in ascending order of their scores; and what a stable sort
    adds: equal scores in ascending order of the indices. *)
Definition score_asc (v : list Q) (i j : nat) : Prop :=
  (nth i v 0 <= nth j v 0)%Q.

Definition ties_asc (v : list Q) (i j : nat) : Prop :=
  (nth i v 0 == nth j v 0)%Q -> i < j.

Definition ties_desc (v : list Q) (i j : nat) : Prop :=
  (nth i v 0 == nth j v 0)%Q -> j < i.

(** Both orders at once. *)
Definition stable_asc (v : list Q) (i j : nat) : Prop :=
  score_asc v i j /\ ties_asc v i j.

(** Pairs in descending order of their scores. *)
Definition score_desc (a b : Document * Q) : Prop := (snd b <= snd a)%Q.

(** The store and the matrix are aligned: no matrix while the store is
    empty, and one row per document afterwards. *)
Definition aligned (self : EmbeddingRetriever) : Prop :=
  match embeddings self with
  | None => documents self = []
  | Some X => List.length X = List.length (documents self)
  end.

(** ** Sample rows

    Documents as [load_csv] builds them: the content is the row's
    "column: value" pairs, the metadata names the source and the row. *)

Definition row (index content : string) : Document :=
  mkDocument content [("source", "rows.csv"); ("row_index", index)].

Definition river_0 : Document := row "0" "Name: river bridge".
Definition river_1 : Document := row "1" "Name: river bridge".
Definition tower_2 : Document := row "2" "Name: stone tower".

(** A row whose columns and cells are all numbers. *)
Definition numbers_0 : Document := row "0" "2020: 31.2 | 2021: 30.8".

(** The retriever after [add_documents([river_0, river_1, tower_2])]. *)
Definition river_index : EmbeddingRetriever :=
  state_after (run_add_documents [river_0; river_1; tower_2]) (new_retriever 5000).

(** A state-level row of Texas and a county-level row of another state. *)
Definition texas_row : Document := row "0" "StateName: Texas | Measure: Obesity".
Definition harris_row : Document := row "1" "CountyName: Harris | Measure: Obesity".

Definition two_rows : EmbeddingRetriever :=
  {| vectorizer := {| max_features := 5000; fitted := None |};
     embeddings := None; documents := [texas_row; harris_row] |}.







(** The factor after [a] state boosts, [b] health boosts, and the
    location boost and the penalty where they apply: the same products
    in the same order as in [boost_factor]. *)
Definition chain (n : nat) (by_factor f : Q) : Q :=
  Nat.iter n (fun a => fmul a by_factor) f.

Definition factor_of (a b : nat) (loc pen : bool) : Q :=
  let f1 := chain a boost_state 1 in
  let f2 := chain b boost_health f1 in
  let f3 := if loc then fmul f2 boost_location else f2 in
  if pen then fmul f3 penalty_county else f3.



(** ** The scoring kernels in exact arithmetic

    What the three float kernels compute when no operation rounds, over
    the real numbers: the weights of [TfidfTransformer] with
    [sublinear_tf=True], [smooth_idf=True] and [norm='l2'], and one entry
    of [cosine_similarity], which normalises both rows again. *)

Module ExactKernels.

Local Open Scope R_scope.


Definition exact_tf (count : nat) : R :=
  match count with
  | O => 0
  | S _ => 1 + ln (INR count)
  end.

Fixpoint weigh (idf : list R) (counts : list nat) : list R :=
  match idf, counts with
  | w :: idf', c :: counts' => exact_tf c * w :: weigh idf' counts'
  | _, _ => []
  end.

Fixpoint Rdot (x y : list R) : R :=
  match x, y with
  | a :: x', b :: y' => a * b + Rdot x' y'
  | _, _ => 0
  end.

Definition l2_norm (x : list R) : R := sqrt (Rdot x x).

(** A row of zeros is divided by 1. *)
Definition safe_norm (x : list R) : R :=
  if Req_dec_T (l2_norm x) 0 then 1 else l2_norm x.

Definition l2_normalize (x : list R) : list R :=
  map (fun a => a / safe_norm x) x.



End ExactKernels.

(** ** The scoring kernels in binary64

    What the weighting, the normalisation and the dot product compute in
    the doubles of the machine, over the primitive floats, with the
    operations in the order of scikit-learn: a row is divided by the
    square root of the sum of its squares ([norm='l2']), and
    [cosine_similarity] normalises both rows once more before it takes
    their dot product.  The logarithm is not among the primitives: the
    sublinear term frequencies [1 + log(count)] and the inverse document
    frequencies are inputs. *)

Module FloatKernels.

Import Floats.
Local Open Scope float_scope.

Fixpoint weigh (idf tf : list float) : list float :=
  match idf, tf with
  | w :: idf', t :: tf' => t * w :: weigh idf' tf'
  | _, _ => []
  end.

(** The sum of the products, accumulated from the left. *)
Fixpoint fdot (x y : list float) (sum : float) : float :=
  match x, y with
  | a :: x', b :: y' => fdot x' y' (sum + a * b)
  | _, _ => sum
  end.

Definition l2_norm (x : list float) : float := sqrt (fdot x x 0).

(** A row of zeros is divided by 1. *)
Definition safe_norm (x : list float) : float :=
  if l2_norm x =? 0 then 1 else l2_norm x.

Definition l2_normalize (x : list float) : list float :=
  map (fun a => a / safe_norm x) x.



(** The rational number a finite double is. *)
Definition to_Q (f : float) : Q :=
  match Prim2SF f with
  | S754_finite s m e =>
      Qred ((if s then - inject_Z (Zpos m) else inject_Z (Zpos m)) * pow2 e)
  | _ => 0%Q
  end.

End FloatKernels.

(** ** Vocabulary of the further statements *)

(** Successive calls of [add_documents], one per batch; the first call
    that raises ends the sequence. *)
Fixpoint add_each (add : list Document -> M unit) (batches : list (list Document))
  : M unit :=
  match batches with
  | [] => ret tt
  | batch :: rest => bind (add batch) (fun _ => add_each add rest)
  end.

(** The retriever holds a fitted vocabulary and a matrix with one row per
    document and one column per feature. *)
Definition ready (self : EmbeddingRetriever) : Prop :=
  exists v idf X,
    fitted (vectorizer self) = Some v /\
    idf_ v = Some idf /\
    embeddings self = Some X /\
    vocabulary_ v <> [] /\
    List.length X = List.length (documents self) /\
    Forall (fun row => List.length row = List.length (vocabulary_ v)) X.

(** The boosted scores [retrieve] ranks: its steps from the expansion of
    the query to [_apply_context_boost], once the guard has passed. *)
Definition boosted_scores (stop_words : list string)
  (tfidf_row : list Q -> list nat -> list Q) (cosine : list Q -> list Q -> Q)
  (query : string) : M (list Q) :=
  (self <- get_self ;;
   match embeddings self with
   | None => ret []
   | Some X =>
       query_embedding <- transform stop_words tfidf_row
                            (_enhance_query_for_retrieval query) ;;
       similarities <- lift (cosine_similarity cosine query_embedding X) ;;
       _apply_context_boost similarities query
   end)%py.

From Stdlib Require Import Permutation.

(** The contract of [argsort] besides the order: the result lists every
    index of the array once. *)
Definition lists_indices (argsort : list Q -> list nat) : Prop :=
  forall v, Permutation (argsort v) (seq 0 (List.length v)).

(** Every character of a string passes a test. *)
Fixpoint string_forall (p : ascii -> bool) (s : string) : bool :=
  match s with
  | EmptyString => true
  | String c s' => p c && string_forall p s'
  end.

(** The letters a-z. *)
Definition is_lower_letter (c : ascii) : bool :=
  let n := nat_of_ascii c in (97 <=? n) && (n <=? 122).

(** A character that [str.lower] leaves as it is. *)
Definition lowered (c : ascii) : bool := Ascii.eqb (lower_char c) c.


(** ** Rows of a CSV file: the loop of [load_csv]

    pandas reads the file and draws the sample; the program's part is the
    conversion of each row.  A row is the list of its cells in column
    order; a cell is the column's name with [None] where [pd.notna] is
    false, otherwise the text of the value ([str(value)], which is also
    what the f-string writes). *)

From Stdlib Require Import DecimalString DecimalNat.
From Stdlib Require Qabs.

Definition cell : Type := (string * option string)%type.

(** [d[key] = value] and [d.get(key)] on a dictionary, which keeps the
    order in which its keys were first set. *)
Fixpoint dict_set (key value : string) (d : list (string * string))
  : list (string * string) :=
  match d with
  | [] => [(key, value)]
  | (k, v) :: rest =>
      if String.eqb k key then (k, value) :: rest
      else (k, v) :: dict_set key value rest
  end.

Fixpoint dict_get (key : string) (d : list (string * string)) : option string :=
  match d with
  | [] => None
  | (k, v) :: rest => if String.eqb k key then Some v else dict_get key rest
  end.

(** [sep.join(parts)]. *)
Definition join (sep : string) (parts : list string) : string :=
  String.concat sep parts.

(** One turn of [for col, value in row.items()], on the pair
    [(text_parts, metadata)]. *)
Definition row_step (acc : list string * list (string * string)) (c : cell)
  : list string * list (string * string) :=
  match snd c with
  | Some value =>
      (fst acc ++ [(fst c ++ ": " ++ value)%string], dict_set (fst c) value (snd acc))
  | None => acc
  end.

(** The body of [for idx, row in df.iterrows()]: the document of a row. *)
Definition row_document (file_path idx : string) (row : list cell) : Document :=
  let acc :=
    fold_left row_step row ([], [("source", file_path); ("row_index", idx)]) in
  mkDocument (join " | " (fst acc)) (snd acc).

(** A frame after sampling: the rows with their index labels. *)
Definition frame : Type := list (string * list cell).

(** [load_csv]: [df] is what pandas gave, a frame or an exception, which
    the [except] clause turns into an empty list. *)
Definition load_csv (file_path : string) (df : result frame) : list Document :=
  match df with
  | Ok rows => map (fun r => row_document file_path (fst r) (snd r)) rows
  | Raise _ => []
  end.

(** [load_yaml_metadata] returns an empty dictionary for every path. *)
Definition load_yaml_metadata (yaml_path : string) : list (string * string) := [].

(** The non-null cells of a row, and the value of the last non-null cell
    of a column. *)
Definition present (row : list cell) : list (string * string) :=
  flat_map (fun c => match snd c with Some v => [(fst c, v)] | None => [] end) row.

Fixpoint last_cell (col : string) (row : list cell) : option string :=
  match row with
  | [] => None
  | c :: rest =>
      match last_cell col rest with
      | Some v => Some v
      | None =>
          match snd c with
          | Some v => if String.eqb (fst c) col then Some v else None
          | None => None
          end
      end
  end.

(** ** The prompt: [format_context] *)

(** The line feed. *)
Definition nl : string := String (ascii_of_nat 10) EmptyString.

(** [str(i)] for a natural number. *)
Definition str_nat (n : nat) : string := NilEmpty.string_of_uint (Nat.to_uint n).

(** The nearest integer to [num / den], ties to the even one, for
    [0 <= num] and [0 < den]. *)
Definition round_half_even (num den : Z) : Z :=
  let q := (num / den)%Z in
  let r := (num mod den)%Z in
  if (2 * r <? den)%Z then q
  else if (den <? 2 * r)%Z then (q + 1)%Z
  else if Z.even q then q else (q + 1)%Z.

(** The thousandths [format] shows for a score. *)
Definition thousandths (score : Q) : Z :=
  round_half_even (Z.abs (Qnum score) * 1000) (Zpos (Qden score)).

(** The number a string of digits denotes. *)
Definition read_nat (s : string) : option nat :=
  option_map Nat.of_uint (NilEmpty.uint_of_string s).

(** Three digits, with leading zeros. *)
Definition pad3 (n : nat) : string :=
  let s := str_nat n in
  match String.length s with
  | 0 => ("000" ++ s)%string
  | 1 => ("00" ++ s)%string
  | 2 => ("0" ++ s)%string
  | _ => s
  end.

(** [f"{score:.3f}"]: the sign, the integer part, a point and three
    decimals of the correctly rounded value. *)
Definition format_3f (score : Q) : string :=
  let t := thousandths score in
  ((if (Qnum score <? 0)%Z then "-" else "")
   ++ str_nat (Z.to_nat (t / 1000)) ++ "." ++ pad3 (Z.to_nat (t mod 1000)))%string.

(** The lines [f"{key}: {value}"] of a dictionary without the keys of
    [skipped]. *)
Definition metadata_lines (skipped : list string) (d : list (string * string))
  : list string :=
  map (fun kv => (fst kv ++ ": " ++ snd kv)%string)
    (filter (fun kv => negb (mem (fst kv) skipped)) d).

Definition row_header (i : nat) (score : Q) : string :=
  (nl ++ "--- Row " ++ str_nat i ++ " (Relevance: " ++ format_3f score ++ ") ---")%string.

(** [for i, (doc, score) in enumerate(retrieved_docs, 1)]. *)
Fixpoint row_parts (i : nat) (retrieved_docs : list (Document * Q)) : list string :=
  match retrieved_docs with
  | [] => []
  | (doc, score) :: rest =>
      row_header i score
        :: metadata_lines ["source"; "row_index"] (metadata doc)
        ++ row_parts (S i) rest
  end.

(** The list [context_parts]; the test [if yaml_metadata:] fails on
    [None] and on an empty dictionary. *)
Definition context_parts (retrieved_docs : list (Document * Q))
  (yaml_metadata : option (list (string * string))) : list string :=
  match yaml_metadata with
  | Some (kv :: more) =>
      "=== Dataset Metadata ===" :: metadata_lines ["columns"] (kv :: more) ++ [""]
  | _ => []
  end
  ++ "=== Relevant Data Rows ===" :: row_parts 1 retrieved_docs.

Definition format_context (retrieved_docs : list (Document * Q)) (query : string)
  (yaml_metadata : option (list (string * string))) : string :=
  ("Based on the following context data, please answer the user's question."
   ++ nl ++ nl ++ "User Question: " ++ query
   ++ nl ++ nl ++ "Context:" ++ nl
   ++ join nl (context_parts retrieved_docs yaml_metadata)
   ++ nl ++ nl
   ++ "Please provide a detailed and accurate answer based on the data provided above.")%string.

(** ** [main] *)

(** The path where [main] looks for the metadata of a CSV file. *)
Definition yaml_file (csv_file : string) : string :=
  replace ".csv" ".yaml" csv_file.

(** [main] up to the prompt it prints and saves: it builds its own
    retriever with the default [max_features]; [path_exists] is
    [os.path.exists], [df] what pandas gave for the CSV file.  The result
    is [None] when no row was read, otherwise the retrieved rows and the
    prompt. *)
Definition main (stop_words : list string) (idf_weight : nat -> nat -> Q)
  (tfidf_row : list Q -> list nat -> list Q) (cosine : list Q -> list Q -> Q)
  (argsort : list Q -> list nat) (path_exists : string -> bool)
  (csv_file question : string) (top_k : Z) (df : result frame)
  : result (option (list (Document * Q) * string)) :=
  let retriever := new_retriever 5000 in
  let yaml_metadata :=
    if path_exists (yaml_file csv_file)
    then Some (load_yaml_metadata (yaml_file csv_file))
    else None in
  let documents := load_csv csv_file df in
  returned
    (found <- main_core stop_words idf_weight tfidf_row cosine argsort
                documents question top_k ;;
     match found with
     | None => ret None
     | Some results =>
         ret (Some (results, format_context results question yaml_metadata))
     end)%py
    retriever.

Definition run_main := main stop_words_excerpt unit_idf count_row dot stable_argsort.

(** A frame of three rows. *)
Definition bridges : frame :=
  [ ("0", [("Name", Some "river bridge"); ("Built", None)]);
    ("1", [("Name", Some "river bridge"); ("Built", Some "1931")]);
    ("2", [("Name", Some "stone tower"); ("Built", Some "1870")]) ].

(** * Properties *)

(** ** Substrings and [replace] *)

Section StringFacts.

Local Open Scope string_scope.

Lemma startswith_refl (p : string) : startswith p p = true.
Proof.
  induction p as [|a p IH]; simpl; [reflexivity|].
  now rewrite Ascii.eqb_refl.
Qed.

Lemma startswith_append (p x : string) : startswith p (p ++ x) = true.
Proof.
  induction p as [|a p IH]; simpl; [reflexivity|].
  now rewrite Ascii.eqb_refl.
Qed.

Lemma startswith_split (p s : string) :
  startswith p s = true -> exists y, s = p ++ y.
Proof.
  revert s; induction p as [|a p IH]; intros s H.
  - now exists s.
  - destruct s as [|b s]; simpl in H; [discriminate|].
    apply andb_true_iff in H as [Hab Hp].
    apply Ascii.eqb_eq in Hab; subst b.
    destruct (IH _ Hp) as [y ->]. now exists y.
Qed.

Lemma append_assoc (x y z : string) : (x ++ y) ++ z = x ++ (y ++ z).
Proof. induction x as [|c x IH]; simpl; [reflexivity|now rewrite IH]. Qed.

Lemma append_empty_r (x : string) : x ++ "" = x.
Proof. induction x as [|c x IH]; simpl; [reflexivity|now rewrite IH]. Qed.

Lemma append_length (x y : string) :
  String.length (x ++ y) = String.length x + String.length y.
Proof. induction x as [|c x IH]; simpl; [reflexivity|now rewrite IH]. Qed.

Lemma startswith_contains (sub s : string) :
  startswith sub s = true -> contains sub s = true.
Proof. intros H. destruct s; simpl in *; now rewrite H. Qed.

(** [contains] is the substring relation. *)
Lemma contains_split (sub s : string) :
  contains sub s = true <-> exists x y, s = x ++ sub ++ y.
Proof.
  split.
  - induction s as [|c s IH]; simpl; intros H.
    + rewrite orb_false_r in H. destruct (startswith_split _ _ H) as [y ->].
      now exists "", y.
    + apply orb_true_iff in H as [H|H].
      * destruct (startswith_split _ _ H) as [y Hy]. exists "", y. exact Hy.
      * destruct (IH H) as (x & y & ->). now exists (String c x), y.
  - intros (x & y & ->). induction x as [|c x IH]; simpl.
    + apply startswith_contains, startswith_append.
    + rewrite IH. apply orb_true_r.
Qed.

Lemma contains_refl (s : string) : contains s s = true.
Proof. apply contains_split. exists "", "". simpl. now rewrite append_empty_r. Qed.

Lemma contains_trans (a b c : string) :
  contains a b = true -> contains b c = true -> contains a c = true.
Proof.
  rewrite !contains_split. intros (x & y & ->) (u & v & ->).
  exists (u ++ x), (y ++ v). now rewrite !append_assoc.
Qed.

Lemma contains_append_l (a x y : string) :
  contains a x = true -> contains a (x ++ y) = true.
Proof.
  rewrite !contains_split. intros (u & v & ->).
  exists u, (v ++ y). now rewrite !append_assoc.
Qed.

Lemma contains_append_r (a x y : string) :
  contains a y = true -> contains a (x ++ y) = true.
Proof.
  rewrite !contains_split. intros (u & v & ->).
  exists (x ++ u), v. now rewrite !append_assoc.
Qed.

(** Where [old] occurs, [replace] leaves a copy of [new]. *)
Lemma replace_scan_contains (old new s : string) :
  old <> "" ->
  contains old s = true ->
  contains new (replace_scan old new 0 s) = true.
Proof.
  intros Hold. induction s as [|c s IH]; intros H.
  - simpl in H. destruct old; [congruence|discriminate].
  - cbn [replace_scan]. destruct (startswith old (String c s)) eqn:E.
    + apply contains_append_l, contains_refl.
    + cbn [contains] in H. rewrite E in H. simpl in H.
      cbn [contains]. rewrite (IH H). apply orb_true_r.
Qed.

(** Without an occurrence the text is returned as it is. *)
Lemma replace_scan_absent (old new s : string) :
  contains old s = false -> replace_scan old new 0 s = s.
Proof.
  induction s as [|c s IH]; intros H; [reflexivity|].
  cbn [contains] in H. apply orb_false_iff in H as [E H].
  cbn [replace_scan]. rewrite E. now rewrite (IH H).
Qed.

(** After a match, the scan passes over the rest of the occurrence. *)
Lemma replace_scan_skip (old new x y : string) :
  replace_scan old new (String.length x) (x ++ y) = replace_scan old new 0 y.
Proof.
  induction x as [|c x IH]; simpl.
  - destruct y; reflexivity.
  - exact IH.
Qed.

(** The leftmost occurrence is rewritten where it stands: what is before
    it stays, [new] takes its place, and the scan goes on after it. *)
Lemma replace_scan_leftmost (old new x y : string) :
  old <> "" ->
  no_match_before old (String.length x) (x ++ old ++ y) = true ->
  replace_scan old new 0 (x ++ old ++ y) = x ++ new ++ replace_scan old new 0 y.
Proof.
  intros Hold. induction x as [|c x IH]; intros H.
  - simpl. destruct old as [|a old]; [congruence|].
    cbn [append replace_scan]. 
    change (String a (old ++ y)) with (String a old ++ y).
    rewrite startswith_append. f_equal.
    replace (String.length (String a old) - 1) with (String.length old)
      by (simpl; lia).
    apply replace_scan_skip.
  - cbn [append String.length no_match_before] in H.
    apply andb_true_iff in H as [E H]. apply negb_true_iff in E.
    cbn [append replace_scan]. cbn [append] in E. rewrite E.
    now rewrite (IH H).
Qed.

End StringFacts.

(** ** Query expander *)





(** ** Sample runs of the string operations *)

Example lower_example : lower "What is the Obesity rate in Colorado?" = "what is the obesity rate in colorado?".
Proof. reflexivity. Qed.

Example replace_example : replace "aa" "b" "aaaaa" = "bba".
Proof. reflexivity. Qed.

Example contains_example : contains "co" "income" = true /\ contains "co" "wealth" = false.
Proof. split; reflexivity. Qed.

Example enhance_texas :
  _enhance_query_for_retrieval "Texas weather" = "TX texas weather".
Proof. reflexivity. Qed.

Example enhance_california :
  _enhance_query_for_retrieval "california" = "CA CA cAL alifornia".
Proof. reflexivity. Qed.

Example tokenize_row :
  tokenize (lower "State: CO | Measure: Obesity | Data_Value: 31.2")
  = ["state"; "co"; "measure"; "obesity"].
Proof. reflexivity. Qed.

Example main_core_rows :
  returned (run_main_core [river_0; river_1; tower_2] "river" 1) (new_retriever 5000)
  = Ok (Some [(river_1, 1%Q)]).
Proof. vm_compute. reflexivity. Qed.

Example analyze_stop_words :
  analyze stop_words_excerpt "What is the obesity rate"
  = ["obesity"; "rate"; "obesity rate"].
Proof. reflexivity. Qed.

(** ** Tokenizer *)

Section TokenizerFacts.

Lemma is_alpha_word (c : ascii) : is_alpha c = true -> is_word c = true.
Proof. unfold is_word. now intros ->. Qed.

Lemma get_below_run (s : string) (m : nat) :
  m < alpha_run s -> is_word_opt (String.get m s) = true.
Proof.
  revert m; induction s as [|c s IH]; intros m H; simpl in H; [lia|].
  destruct (is_alpha c) eqn:E; [|lia].
  destruct m as [|m]; simpl.
  - now apply is_alpha_word.
  - apply IH. lia.
Qed.

Lemma substring_run_length (s : string) :
  String.length (String.substring 0 (alpha_run s) s) = alpha_run s.
Proof.
  induction s as [|c s IH]; simpl; [reflexivity|].
  destruct (is_alpha c); simpl; [now rewrite IH|reflexivity].
Qed.

(** Giving back letters of the run never helps: inside the run there is
    no word boundary. *)
Lemma backtrack_inside (s : string) (k : nat) :
  k < alpha_run s -> backtrack k s = None.
Proof.
  induction k as [|m IH]; intros H; [reflexivity|].
  cbn [backtrack]. unfold word_boundary.
  rewrite (get_below_run s m) by lia.
  rewrite (get_below_run s (S m)) by lia.
  simpl xorb. rewrite andb_false_r.
  apply IH. lia.
Qed.

(** So the pattern matches the whole run or nothing. *)
Lemma backtrack_run (s : string) :
  backtrack (alpha_run s) s =
  if (2 <=? alpha_run s) && negb (is_word_opt (String.get (alpha_run s) s))
  then Some (String.substring 0 (alpha_run s) s)
  else None.
Proof.
  destruct (alpha_run s) as [|m] eqn:E; [reflexivity|].
  cbn [backtrack]. unfold word_boundary.
  rewrite (get_below_run s m) by lia. rewrite xorb_true_l.
  destruct ((2 <=? S m) && negb (is_word_opt (String.get (S m) s))); [reflexivity|].
  apply backtrack_inside. lia.
Qed.

Lemma match_token_alpha (prev : option ascii) (c : ascii) (s : string) :
  is_alpha c = true ->
  match_token prev (String c s) =
  if delimited (prev, String.substring 0 (alpha_run (String c s)) (String c s),
                String.get (alpha_run (String c s)) (String c s))
  then Some (String.substring 0 (alpha_run (String c s)) (String c s))
  else None.
Proof.
  intros Hc. unfold match_token, delimited, word_boundary.
  rewrite substring_run_length, backtrack_run.
  cbn [head is_word_opt]. rewrite (is_alpha_word c Hc).
  destruct (is_word_opt prev); cbn [xorb negb].
  - now rewrite andb_false_r.
  - now rewrite andb_true_r.
Qed.

Lemma match_token_other (prev : option ascii) (c : ascii) (s : string) :
  is_alpha c = false -> match_token prev (String c s) = None.
Proof.
  intros Hc. unfold match_token. cbn [alpha_run]. rewrite Hc.
  now destruct (word_boundary prev (head (String c s))).
Qed.

(** After a word character the search finds nothing until the run of
    letters it stands in is over. *)
Lemma findall_after_word (s : string) (prev : option ascii) :
  is_word_opt prev = true ->
  findall_tokens prev 0 s = findall_tokens prev (alpha_run s) s.
Proof.
  revert prev; induction s as [|c s IH]; intros prev Hp; [reflexivity|].
  cbn [alpha_run]. destruct (is_alpha c) eqn:Hc; [|reflexivity].
  cbn [findall_tokens].
  assert (Hm : match_token prev (String c s) = None).
  { unfold match_token, word_boundary. cbn [head is_word_opt].
    now rewrite Hp, (is_alpha_word c Hc). }
  rewrite Hm. apply IH. cbn [is_word_opt]. now apply is_alpha_word.
Qed.

Lemma findall_tokens_segments (s : string) (prev : option ascii) (skip : nat) :
  findall_tokens prev skip s =
  map run_of (filter delimited (alpha_segments prev skip s)).
Proof.
  revert prev skip; induction s as [|c s IH]; intros prev skip; [reflexivity|].
  destruct skip as [|k]; cbn [findall_tokens alpha_segments]; [|apply IH].
  destruct (is_alpha c) eqn:Hc.
  - rewrite (match_token_alpha prev c s Hc). cbn [filter].
    set (seg := (prev, String.substring 0 (alpha_run (String c s)) (String c s),
                 String.get (alpha_run (String c s)) (String c s))).
    destruct (delimited seg) eqn:Hd.
    + cbn [map]. unfold run_of at 1. cbn [fst snd seg]. f_equal.
      rewrite substring_run_length. apply IH.
    + rewrite findall_after_word
        by (cbn [is_word_opt]; now apply is_alpha_word).
      rewrite IH. cbn [alpha_run]. rewrite Hc.
      now replace (S (alpha_run s) - 1) with (alpha_run s) by lia.
  - rewrite (match_token_other prev c s Hc). apply IH.
Qed.

End TokenizerFacts.

(** C4, as the specification states it, fails.  In "abc123" the run
    "abc" has three letters and touches a digit: it is a run of the
    specification and not a token.  The same happens to both halves of
    the column name "Data_Value", and a digit in front does it too. *)
Lemma tokenize_runs_counterexample :
  tokenize (lower "abc123") = [] /\
  alpha_runs_spec "abc123" = ["abc"] /\
  tokenize (lower "Data_Value: 31.2") = [] /\
  alpha_runs_spec "Data_Value: 31.2" = ["data"; "value"] /\
  tokenize (lower "covid19 2nd wave") = ["wave"] /\
  alpha_runs_spec "covid19 2nd wave" = ["covid"; "nd"; "wave"].
Proof. repeat split; reflexivity. Qed.

(** C4, amended.  The tokens of a text are exactly the lower-cased
    maximal runs of the letters A-Z and a-z that have at least two
    letters and touch no word character (a digit, an underscore, a
    letter outside A-Z and a-z) on either side; white space and
    punctuation other than the underscore delimit a token and never
    suppress it.  What is indexed are the word n-grams of these tokens
    once the stop words are removed. *)
Theorem tokenize_delimited_runs (stop_words : list string) (doc : string) :
  tokenize (lower doc) = delimited_runs doc /\
  analyze stop_words doc = word_ngrams stop_words (delimited_runs doc).
Proof.
  assert (H : tokenize (lower doc) = delimited_runs doc)
    by apply findall_tokens_segments.
  split; [exact H|].
  unfold analyze. now rewrite H.
Qed.

(** ** Sorted lists of indices *)

Section SortedFacts.

Context {A : Type}.

Lemma StronglySorted_impl (R S : A -> A -> Prop) (l : list A) :
  (forall a b, R a b -> S a b) -> StronglySorted R l -> StronglySorted S l.
Proof.
  intros HRS H; induction H as [|a l Hl IH Ha]; constructor; auto.
  eapply Forall_impl; [|exact Ha]. auto.
Qed.

Lemma StronglySorted_skipn (R : A -> A -> Prop) (n : nat) (l : list A) :
  StronglySorted R l -> StronglySorted R (skipn n l).
Proof.
  revert l; induction n as [|n IH]; intros l H; [exact H|].
  destruct l as [|a l]; [constructor|].
  simpl. apply IH. now apply StronglySorted_inv in H.
Qed.

Lemma StronglySorted_app_one (R : A -> A -> Prop) (l : list A) (a : A) :
  StronglySorted R l -> Forall (fun b => R b a) l -> StronglySorted R (l ++ [a]).
Proof.
  intros H; induction H as [|b l Hl IH Hb]; intros Ha; simpl.
  - repeat constructor.
  - inversion Ha; subst. constructor; [now apply IH|].
    apply Forall_app; split; [exact Hb|now constructor].
Qed.

Lemma StronglySorted_rev (R : A -> A -> Prop) (l : list A) :
  StronglySorted R l -> StronglySorted (fun a b => R b a) (rev l).
Proof.
  intros H; induction H as [|a l Hl IH Ha]; simpl; [constructor|].
  apply StronglySorted_app_one; [exact IH|]. now apply Forall_rev.
Qed.

Lemma StronglySorted_filter (R : A -> A -> Prop) (f : A -> bool) (l : list A) :
  StronglySorted R l -> StronglySorted R (filter f l).
Proof.
  intros H; induction H as [|a l Hl IH Ha]; simpl; [constructor|].
  destruct (f a); [|exact IH]. constructor; [exact IH|].
  apply Forall_forall. intros b Hb. apply filter_In in Hb as [Hb _].
  rewrite Forall_forall in Ha. now apply Ha.
Qed.

Lemma StronglySorted_map {B : Type} (R : A -> A -> Prop) (S : B -> B -> Prop)
  (g : A -> B) (l : list A) :
  (forall a b, R a b -> S (g a) (g b)) ->
  StronglySorted R l -> StronglySorted S (map g l).
Proof.
  intros HRS H; induction H as [|a l Hl IH Ha]; simpl; constructor; auto.
  apply Forall_map. eapply Forall_impl; [|exact Ha]. auto.
Qed.

Lemma slice_from_skipn (start : Z) (a : list A) :
  exists n, slice_from start a = skipn n a.
Proof. unfold slice_from. eauto. Qed.

(** [a[-k:]] has at most [k] elements once [k] is at least 1. *)
Lemma slice_from_last_length (k : Z) (a : list A) :
  (1 <= k)%Z -> (Z.of_nat (List.length (slice_from (- k) a)) <= k)%Z.
Proof.
  intros Hk. unfold slice_from.
  replace (- k <? 0)%Z with true by (symmetry; apply Z.ltb_lt; lia).
  rewrite length_skipn. lia.
Qed.

(** [a[-0:]] is all of [a]. *)
Lemma slice_from_zero (a : list A) : slice_from (- 0) a = a.
Proof. unfold slice_from. simpl. now rewrite Z.min_l by lia. Qed.

End SortedFacts.

(** ** The stable instance of [argsort] *)

Section StableArgsort.

Variable v : list Q.

Lemma insert_index_In (i x : nat) (l : list nat) :
  In x (insert_index v i l) <-> x = i \/ In x l.
Proof.
  induction l as [|j l IH]; simpl; [intuition|].
  destruct (Qle_bool (nth i v 0%Q) (nth j v 0%Q)); simpl; [intuition|].
  rewrite IH. intuition.
Qed.

Lemma insert_index_sorted (i : nat) (l : list nat) :
  Forall (fun j => i < j) l ->
  StronglySorted (stable_asc v) l ->
  StronglySorted (stable_asc v) (insert_index v i l).
Proof.
  intros Hlt H; induction H as [|j l Hl IH Hj]; simpl.
  - repeat constructor.
  - inversion Hlt as [|? ? Hij Hlt']; subst.
    destruct (Qle_bool (nth i v 0%Q) (nth j v 0%Q)) eqn:E.
    + apply Qle_bool_iff in E.
      constructor; [now constructor|].
      constructor; [split; [exact E|intros _; exact Hij]|].
      rewrite Forall_forall in *. intros x Hx. split.
      * unfold score_asc. eapply Qle_trans; [exact E|]. now apply Hj.
      * intros _. now apply Hlt'.
    + assert (Hji : (nth j v 0 < nth i v 0)%Q).
      { apply Qnot_le_lt. intros H. apply Qle_bool_iff in H. congruence. }
      constructor; [now apply IH|].
      apply Forall_forall. intros x Hx. apply insert_index_In in Hx as [->|Hx].
      * split; [now apply Qlt_le_weak|].
        intros Heq. rewrite Heq in Hji. now apply Qlt_irrefl in Hji.
      * rewrite Forall_forall in Hj. now apply Hj.
Qed.

Lemma stable_argsort_from (a n : nat) :
  StronglySorted (stable_asc v) (fold_right (insert_index v) [] (seq a n)) /\
  Forall (fun j => a <= j) (fold_right (insert_index v) [] (seq a n)).
Proof.
  revert a; induction n as [|n IH]; intros a; simpl.
  - split; constructor.
  - destruct (IH (S a)) as [Hs Hge]. split.
    + apply insert_index_sorted; [|exact Hs].
      eapply Forall_impl; [|exact Hge]. simpl. lia.
    + apply Forall_forall. intros x Hx.
      apply insert_index_In in Hx as [->|Hx]; [lia|].
      rewrite Forall_forall in Hge. specialize (Hge _ Hx). lia.
Qed.

Lemma stable_argsort_sorted : StronglySorted (score_asc v) (stable_argsort v).
Proof.
  eapply StronglySorted_impl; [|apply (stable_argsort_from 0)].
  now intros a b [H _].
Qed.

Lemma stable_argsort_ties : StronglySorted (ties_asc v) (stable_argsort v).
Proof.
  eapply StronglySorted_impl; [|apply (stable_argsort_from 0)].
  now intros a b [_ H].
Qed.

End StableArgsort.

(** ** Ranker *)

Section RankerFacts.

Lemma Qpositive_lt (x : Q) : Qpositive x = true <-> (0 < x)%Q.
Proof.
  unfold Qpositive. rewrite negb_true_iff. split.
  - intros H. apply Qnot_le_lt. intros Hle. apply Qle_bool_iff in Hle. congruence.
  - intros H. destruct (Qle_bool x 0) eqn:E; [|reflexivity].
    apply Qle_bool_iff in E. now apply Qlt_not_le in H.
Qed.

(** The loop over [top_indices] returns the pairs of the indices it
    keeps, in the order of [top_indices]. *)
Lemma collect_results_kept (docs : list Document) (boosted : list Q)
  (top : list nat) (results : list (Document * Q)) :
  collect_results docs boosted top = Ok results ->
  results = map (pair_at docs boosted) (kept_indices docs boosted top).
Proof.
  revert results; induction top as [|idx rest IH]; intros results H; simpl in H.
  - now inversion H.
  - unfold kept_indices. cbn [filter]. fold (kept_indices docs boosted rest).
    destruct (nth_error docs idx) as [doc|] eqn:Ed.
    + assert (Hlt : idx < List.length docs)
        by (apply nth_error_Some; congruence).
      apply Nat.ltb_lt in Hlt as Hb. rewrite Hb. cbn [andb].
      destruct (nth_error boosted idx) as [score|] eqn:Eb; [|discriminate].
      rewrite (nth_error_nth _ _ 0%Q Eb).
      destruct (Qpositive score); [|now apply IH].
      destruct (collect_results docs boosted rest) as [r|e]; [|discriminate].
      inversion H; subst. cbn [map]. unfold pair_at at 1.
      rewrite (nth_error_nth _ _ no_document Ed), (nth_error_nth _ _ 0%Q Eb).
      f_equal. now apply IH.
    + apply nth_error_None in Ed. apply Nat.ltb_ge in Ed. rewrite Ed.
      cbn [andb]. now apply IH.
Qed.

Lemma kept_indices_positive (docs : list Document) (boosted : list Q) (top : list nat) :
  Forall (fun r => (0 < snd r)%Q)
    (map (pair_at docs boosted) (kept_indices docs boosted top)).
Proof.
  apply Forall_map, Forall_forall. intros idx H.
  apply filter_In in H as [_ H]. apply andb_true_iff in H as [_ H].
  now apply Qpositive_lt.
Qed.

Lemma kept_indices_length (docs : list Document) (boosted : list Q) (top : list nat) :
  List.length (kept_indices docs boosted top) <= List.length top.
Proof. apply filter_length_le. Qed.

End RankerFacts.

(** ** [retrieve] *)

(** Unfold a method down to the library calls it makes. *)
Ltac run_method :=
  cbv [returned state_after retrieve add_documents fit_transform transform
       main_core _apply_context_boost bind ret raise lift get_self
       set_documents set_embeddings set_fitted reset_tfidf fresh_tfidf
       option_map fst snd
       vectorizer max_features fitted embeddings documents].

Section RetrieveFacts.

Variable stop_words : list string.
Variable tfidf_row : list Q -> list nat -> list Q.
Variable cosine : list Q -> list Q -> Q.
Variable argsort : list Q -> list nat.

(** What [retrieve] returns is nothing at all or what the ranker makes
    of some vector of boosted scores. *)
Lemma retrieve_cases (query : string) (k : Z) (self : EmbeddingRetriever)
  (results : list (Document * Q)) :
  returned (retrieve stop_words tfidf_row cosine argsort query k) self = Ok results ->
  results = [] \/
  exists boosted,
    collect_results (documents self) boosted (top_indices argsort boosted k)
    = Ok results.
Proof.
  destruct self as [[mf fit] emb docs].
  destruct docs as [|d docs]; [intros H; left; now inversion H|].
  destruct emb as [X|]; [|intros H; left; now inversion H].
  destruct fit as [[voc [idf|]]|]; [|discriminate|discriminate].
  run_method. cbn [idf_ vocabulary_].
  destruct (cosine_similarity _ _ X) as [sims|e]; [|discriminate].
  destruct (boost_loop _ (d :: docs) 0 sims) as [boosted|e] eqn:Eb;
    [|discriminate].
  intros H. right. now exists boosted.
Qed.

Lemma retrieve_reads_only (query : string) (k : Z) (self : EmbeddingRetriever) :
  state_after (retrieve stop_words tfidf_row cosine argsort query k) self = self.
Proof.
  destruct self as [[mf fit] emb docs].
  destruct docs as [|d docs]; [reflexivity|].
  destruct emb as [X|]; [|reflexivity].
  destruct fit as [[voc [idf|]]|]; [|reflexivity|reflexivity].
  run_method. cbn [idf_ vocabulary_].
  destruct (cosine_similarity _ _ X) as [sims|e]; [|reflexivity].
  destruct (boost_loop _ (d :: docs) 0 sims) as [boosted|e]; reflexivity.
Qed.

End RetrieveFacts.

(** ** Claims on [retrieve] and [add_documents] *)

Lemma kept_indices_no_scores (docs : list Document) (top : list nat) :
  kept_indices docs [] top = [].
Proof.
  unfold kept_indices. induction top as [|idx top IH]; [reflexivity|].
  cbn [filter]. replace (nth idx [] 0%Q) with 0%Q by (now destruct idx).
  change (Qpositive 0) with false. now rewrite andb_false_r.
Qed.

(** C1, as the specification states it, fails on the order of ties.  The
    rows 0 and 1 have the same content, hence the same score for the
    query "river"; with a stable [argsort] the two best of the three
    documents come back as row 1, then row 0.  The score 1 is what the
    stand-in kernels give; any positive score takes the same path. *)
Lemma retrieve_tie_order_counterexample :
  documents river_index = [river_0; river_1; tower_2] /\
  returned (run_retrieve "river" 2) river_index = Ok [(river_1, 1%Q); (river_0, 1%Q)] /\
  kept_indices (documents river_index) [1%Q; 1%Q; 0%Q]
    (top_indices stable_argsort [1%Q; 1%Q; 0%Q] 2) = [1; 0].
Proof. repeat split; vm_compute; reflexivity. Qed.

(** C1, amended.  Whatever [retrieve] returns is in descending order of
    the boosted scores, holds no score that is zero or negative, and has
    at most [k] pairs when [k] is at least 1.  The pairs are those of the
    indices kept from the reversed tail of [argsort]; ties therefore come
    in the reverse of the order [argsort] gives them, which is the
    descending order of the original indices when [argsort] is stable,
    and is not the original index order. *)
Theorem retrieve_ranked
  (stop_words : list string) (tfidf_row : list Q -> list nat -> list Q)
  (cosine : list Q -> list Q -> Q) (argsort : list Q -> list nat)
  (query : string) (k : Z) (self : EmbeddingRetriever) (results : list (Document * Q)) :
  (forall v, StronglySorted (score_asc v) (argsort v)) ->
  returned (retrieve stop_words tfidf_row cosine argsort query k) self = Ok results ->
  StronglySorted score_desc results /\
  Forall (fun r => (0 < snd r)%Q) results /\
  ((1 <= k)%Z -> (Z.of_nat (List.length results) <= k)%Z) /\
  exists boosted,
    results = map (pair_at (documents self) boosted)
                (kept_indices (documents self) boosted (top_indices argsort boosted k)) /\
    ((forall v, StronglySorted (ties_asc v) (argsort v)) ->
     StronglySorted (ties_desc boosted)
       (kept_indices (documents self) boosted (top_indices argsort boosted k))).
Proof.
  intros Hsorted H. apply retrieve_cases in H as [->|[boosted H]].
  - repeat split; try constructor.
    + intros Hk. simpl. lia.
    + exists []. rewrite kept_indices_no_scores. split; [reflexivity|].
      intros _. constructor.
  - apply collect_results_kept in H. subst results.
    destruct (slice_from_skipn (- k) (argsort boosted)) as [n Hn].
    repeat split.
    + apply StronglySorted_map with (R := fun i j => score_asc boosted j i);
        [intros i j Hij; exact Hij|].
      apply StronglySorted_filter. unfold top_indices. rewrite Hn.
      apply StronglySorted_rev. apply StronglySorted_skipn, Hsorted.
    + apply kept_indices_positive.
    + intros Hk. rewrite length_map.
      pose proof (kept_indices_length (documents self) boosted
                    (top_indices argsort boosted k)) as Hle.
      unfold top_indices in *. rewrite length_rev in Hle.
      pose proof (slice_from_last_length k (argsort boosted) Hk). lia.
    + exists boosted. split; [reflexivity|]. intros Hties.
      apply StronglySorted_filter. unfold top_indices. rewrite Hn.
      apply StronglySorted_impl
        with (R := fun i j => ties_asc boosted j i);
        [intros i j Hij Heq; apply Hij; now symmetry|].
      apply StronglySorted_rev. apply StronglySorted_skipn, Hties.
Qed.

Lemma retrieve_ranked_witness :
  StronglySorted score_desc [(river_1, 1%Q); (river_0, 1%Q)] /\
  Forall (fun r => (0 < snd r)%Q) [(river_1, 1%Q); (river_0, 1%Q)] /\
  ((1 <= 2)%Z -> (Z.of_nat (List.length [(river_1, 1%Q); (river_0, 1%Q)]) <= 2)%Z) /\
  exists boosted,
    [(river_1, 1%Q); (river_0, 1%Q)]
    = map (pair_at (documents river_index) boosted)
        (kept_indices (documents river_index) boosted
           (top_indices stable_argsort boosted 2)) /\
    ((forall v, StronglySorted (ties_asc v) (stable_argsort v)) ->
     StronglySorted (ties_desc boosted)
       (kept_indices (documents river_index) boosted
          (top_indices stable_argsort boosted 2))).
Proof.
  apply (retrieve_ranked stop_words_excerpt count_row dot stable_argsort
           "river" 2 river_index).
  - exact stable_argsort_sorted.
  - vm_compute. reflexivity.
Defined.

(** C2 at the input where the code breaks it: with [k = 0] the slice
    [[-k:]] is the whole array, and [retrieve] returns every document
    whose score is positive, here two pairs. *)
Example retrieve_k_zero :
  (forall (argsort : list Q -> list nat) (boosted : list Q),
     top_indices argsort boosted 0 = rev (argsort boosted)) /\
  returned (run_retrieve "river" 0) river_index
  = Ok [(river_1, 1%Q); (river_0, 1%Q)] /\
  (Z.of_nat (List.length [(river_1, 1%Q); (river_0, 1%Q)]) > 0)%Z.
Proof.
  repeat split.
  intros argsort boosted. unfold top_indices. now rewrite slice_from_zero.
Qed.

(** C6.  When the store is empty or nothing has been fitted, [retrieve]
    returns the empty list, raises nothing and leaves the retriever as
    it is. *)
Theorem retrieve_empty_index
  (stop_words : list string) (tfidf_row : list Q -> list nat -> list Q)
  (cosine : list Q -> list Q -> Q) (argsort : list Q -> list nat)
  (query : string) (k : Z) (self : EmbeddingRetriever) :
  documents self = [] \/ embeddings self = None ->
  retrieve stop_words tfidf_row cosine argsort query k self = (Ok [], self).
Proof.
  destruct self as [[mf fit] emb docs]. cbn [documents embeddings].
  intros [->| ->]; [reflexivity|].
  destruct docs; reflexivity.
Qed.

Lemma retrieve_empty_index_witness :
  run_retrieve "anything" 5 (new_retriever 5000) = (Ok [], new_retriever 5000).
Proof.
  apply (retrieve_empty_index stop_words_excerpt count_row dot stable_argsort
           "anything" 5 (new_retriever 5000)).
  left. reflexivity.
Defined.

(** C10.  A call of [retrieve] leaves every attribute of the retriever
    as it was, the documents, the fitted vocabulary and the matrix,
    whether it returns or raises. *)
Theorem retrieve_leaves_state
  (stop_words : list string) (tfidf_row : list Q -> list nat -> list Q)
  (cosine : list Q -> list Q -> Q) (argsort : list Q -> list nat)
  (query : string) (k : Z) (self : EmbeddingRetriever) :
  state_after (retrieve stop_words tfidf_row cosine argsort query k) self = self /\
  documents (state_after (retrieve stop_words tfidf_row cosine argsort query k) self)
  = documents self /\
  vectorizer (state_after (retrieve stop_words tfidf_row cosine argsort query k) self)
  = vectorizer self /\
  embeddings (state_after (retrieve stop_words tfidf_row cosine argsort query k) self)
  = embeddings self.
Proof.
  rewrite retrieve_reads_only. repeat split.
Qed.

(** ** [add_documents] *)

Section AddDocumentsFacts.

Variable stop_words : list string.
Variable idf_weight : nat -> nat -> Q.
Variable tfidf_row : list Q -> list nat -> list Q.
Variable argsort : list Q -> list nat.

(** A fit that succeeds gives one row per text and touches neither the
    store nor [self.embeddings]; a fit that raises leaves the vectorizer
    with its fresh transformer and changes nothing else. *)
Lemma fit_transform_rows (raw : list string) (self self' : EmbeddingRetriever) (r : result matrix) :
  fit_transform stop_words idf_weight tfidf_row argsort raw self = (r, self') ->
  documents self' = documents self /\
  embeddings self' = embeddings self /\
  match r with
  | Ok X => List.length X = List.length raw
  | Raise _ => vectorizer self' = fresh_tfidf (vectorizer self)
  end.
Proof.
  destruct self as [[mf fit] emb docs]. run_method.
  destruct (dedup [] (List.concat (map (analyze stop_words) raw))) as [|t ts];
    [intros H; inversion H; subst; auto|].
  destruct (95 * List.length raw <? 100 * 1);
    [intros H; inversion H; subst; auto|].
  destruct (limit_features argsort mf (List.length raw) _ _) as [|u us];
    [intros H; inversion H; subst; auto|].
  intros H; inversion H; subst. cbn [documents embeddings].
  repeat split. now rewrite !length_map.
Qed.

(** Fitting no text at all raises: there is no vocabulary. *)
Lemma fit_transform_nothing (self : EmbeddingRetriever) :
  fit_transform stop_words idf_weight tfidf_row argsort [] self
  = (Raise (ValueError "empty vocabulary; perhaps the documents only contain stop words"),
     {| vectorizer := fresh_tfidf (vectorizer self);
        embeddings := embeddings self; documents := documents self |}).
Proof. destruct self as [[mf fit] emb docs]. reflexivity. Qed.

(** The outcome of a fit depends on the texts and on [max_features]
    only: fitting the same texts once more, on the state the first fit
    has left, gives the same matrix and the same state. *)
Lemma fit_transform_again (raw : list string) (self self' self2 : EmbeddingRetriever)
  (X : matrix) :
  fit_transform stop_words idf_weight tfidf_row argsort raw self = (Ok X, self') ->
  vectorizer self2 = vectorizer self' ->
  fit_transform stop_words idf_weight tfidf_row argsort raw self2 = (Ok X, self2).
Proof.
  destruct self as [[mf fit] emb docs], self2 as [v2 emb2 docs2].
  cbn [vectorizer]. intros H Hv. revert H. run_method.
  destruct (dedup [] (List.concat (map (analyze stop_words) raw))) as [|t ts] eqn:Ev;
    [discriminate|].
  destruct (95 * List.length raw <? 100 * 1) eqn:En; [discriminate|].
  destruct (limit_features argsort mf (List.length raw) _ _) as [|u us] eqn:Ek;
    [discriminate|].
  intros H; inversion H; subst; clear H.
  cbn [vectorizer max_features]. rewrite ?Ev, ?En, ?Ek. reflexivity.
Qed.

Lemma add_documents_unfold (docs : list Document) (self : EmbeddingRetriever) :
  add_documents stop_words idf_weight tfidf_row argsort docs self =
  let self1 := {| vectorizer := vectorizer self;
                  embeddings := embeddings self;
                  documents := documents self ++ docs |} in
  let texts := match embeddings self with
               | None => map page_content docs
               | Some _ => map page_content (documents self ++ docs)
               end in
  bind (fit_transform stop_words idf_weight tfidf_row argsort texts)
    set_embeddings self1.
Proof.
  destruct self as [[mf fit] emb docs0].
  cbv [add_documents bind get_self set_documents fst snd
       vectorizer max_features fitted embeddings documents].
  destruct emb; reflexivity.
Qed.

(** On an aligned retriever both branches fit the whole store. *)
Lemma add_documents_refits_all (docs : list Document) (self : EmbeddingRetriever) :
  aligned self ->
  add_documents stop_words idf_weight tfidf_row argsort docs self =
  bind (fit_transform stop_words idf_weight tfidf_row argsort
          (map page_content (documents self ++ docs)))
    set_embeddings
    {| vectorizer := vectorizer self; embeddings := embeddings self;
       documents := documents self ++ docs |}.
Proof.
  intros Hal. rewrite add_documents_unfold. cbv zeta.
  unfold aligned in Hal. destruct (embeddings self); [reflexivity|].
  now rewrite Hal.
Qed.

(** Along calls that return, the store and the matrix stay aligned. *)
Lemma add_documents_keeps_aligned (docs : list Document) (self : EmbeddingRetriever) :
  aligned self ->
  returned (add_documents stop_words idf_weight tfidf_row argsort docs) self = Ok tt ->
  aligned (state_after (add_documents stop_words idf_weight tfidf_row argsort docs) self) /\
  documents (state_after (add_documents stop_words idf_weight tfidf_row argsort docs) self)
  = documents self ++ docs.
Proof.
  unfold returned, state_after. rewrite add_documents_unfold. cbv zeta.
  intros Hal. unfold bind.
  destruct (fit_transform _ _ _ _ _ _) as [r self'] eqn:Efit.
  apply fit_transform_rows in Efit as (Hd & He & Hr).
  cbn [documents embeddings] in Hd, He.
  destruct r as [X|e]; cbn [fst snd]; [intros _|discriminate].
  unfold set_embeddings, aligned. cbn [snd embeddings documents].
  rewrite Hd. split; [|reflexivity].
  unfold aligned in Hal.
  destruct (embeddings self); rewrite length_map in Hr; [exact Hr|].
  now rewrite Hal.
Qed.

End AddDocumentsFacts.

(** C5, as the specification states it, fails: on a fresh retriever an
    empty sequence makes [add_documents] raise [ValueError]. *)
Lemma add_documents_empty_counterexample :
  run_add_documents [] (new_retriever 5000)
  = (Raise (ValueError "empty vocabulary; perhaps the documents only contain stop words"),
     new_retriever 5000).
Proof. reflexivity. Qed.

(** C5, amended.  On a retriever without a matrix, a fresh one in
    particular, [add_documents] with an empty sequence raises
    [ValueError] (the vectorizer finds no vocabulary to fit), and a
    fresh retriever stays fresh.  The entry point tolerates an empty
    sequence by a guard of its own: it leaves the retriever untouched
    and never calls [add_documents].  On a retriever that has been
    indexed, which is the state after any call of [add_documents] that
    returned on a retriever whose matrix had a row per document, an
    empty sequence completes without raising and leaves the retriever
    as it is. *)
Theorem add_documents_empty
  (stop_words : list string) (idf_weight : nat -> nat -> Q)
  (tfidf_row : list Q -> list nat -> list Q) (cosine : list Q -> list Q -> Q)
  (argsort : list Q -> list nat)
  (limit : nat) (question : string) (top_k : Z) (self : EmbeddingRetriever) :
  add_documents stop_words idf_weight tfidf_row argsort [] (new_retriever limit)
  = (Raise (ValueError "empty vocabulary; perhaps the documents only contain stop words"),
     new_retriever limit) /\
  (embeddings self = None ->
   returned (add_documents stop_words idf_weight tfidf_row argsort []) self
   = Raise (ValueError "empty vocabulary; perhaps the documents only contain stop words")) /\
  main_core stop_words idf_weight tfidf_row cosine argsort [] question top_k self
  = (Ok None, self) /\
  (forall (docs : list Document) (self0 : EmbeddingRetriever),
     aligned self0 ->
     returned (add_documents stop_words idf_weight tfidf_row argsort docs) self0 = Ok tt ->
     add_documents stop_words idf_weight tfidf_row argsort []
       (state_after (add_documents stop_words idf_weight tfidf_row argsort docs) self0)
     = (Ok tt,
        state_after (add_documents stop_words idf_weight tfidf_row argsort docs) self0)).
Proof.
  split; [reflexivity|]. split; [|split; [reflexivity|]].
  - intros He. unfold returned. rewrite add_documents_unfold. cbv zeta.
    rewrite He. cbn [map]. unfold bind. now rewrite fit_transform_nothing.
  - intros docs self0 Hal Hret.
    assert (Hst : exists X self1,
              fit_transform stop_words idf_weight tfidf_row argsort
                (map page_content (documents self0 ++ docs))
                {| vectorizer := vectorizer self0; embeddings := embeddings self0;
                   documents := documents self0 ++ docs |} = (Ok X, self1) /\
              state_after (add_documents stop_words idf_weight tfidf_row argsort docs) self0
              = {| vectorizer := vectorizer self1; embeddings := Some X;
                   documents := documents self0 ++ docs |}).
    { revert Hret. unfold returned, state_after.
      rewrite (add_documents_refits_all _ _ _ _ docs self0 Hal). unfold bind.
      destruct (fit_transform _ _ _ _ _ _) as [r self1] eqn:Efit.
      destruct r as [X|e]; cbn [fst snd]; [intros _|discriminate].
      pose proof (fit_transform_rows _ _ _ _ _ _ _ _ Efit) as (Hd & _ & _).
      cbn [documents] in Hd.
      exists X, self1. split; [reflexivity|].
      unfold set_embeddings. cbn [snd]. now rewrite Hd. }
    destruct Hst as (X & self1 & Efit & ->).
    rewrite add_documents_unfold. cbv zeta.
    cbn [embeddings vectorizer documents]. rewrite app_nil_r. unfold bind.
    rewrite (fit_transform_again _ _ _ _ _ _ _
               {| vectorizer := vectorizer self1; embeddings := Some X;
                  documents := documents self0 ++ docs |} _ Efit eq_refl).
    reflexivity.
Qed.

Lemma add_documents_empty_witness :
  let self := state_after (run_add_documents [river_0; tower_2]) (new_retriever 5000) in
  embeddings self <> None /\
  run_add_documents [] self = (Ok tt, self).
Proof.
  cbv zeta. split; [vm_compute; discriminate|].
  apply (proj2 (proj2 (proj2
           (add_documents_empty stop_words_excerpt unit_idf count_row dot stable_argsort
              5000 "river" 5 (new_retriever 5000))))
           [river_0; tower_2] (new_retriever 5000)).
  - reflexivity.
  - vm_compute. reflexivity.
Defined.

(** C9 at an input where the code breaks it.  A first call whose fit
    raises has already extended the store; the next call finds no matrix
    and fits the new texts only: three documents, two rows, and
    [retrieve] then raises [IndexError]. *)
Example add_documents_after_failed_fit :
  let self1 := state_after (run_add_documents [numbers_0]) (new_retriever 5000) in
  let self2 := state_after (run_add_documents [river_1; tower_2]) self1 in
  returned (run_add_documents [numbers_0]) (new_retriever 5000)
  = Raise (ValueError "empty vocabulary; perhaps the documents only contain stop words") /\
  documents self1 = [numbers_0] /\ embeddings self1 = None /\
  returned (run_add_documents [river_1; tower_2]) self1 = Ok tt /\
  List.length (documents self2) = 3 /\
  option_map (@List.length (list Q)) (embeddings self2) = Some 2 /\
  returned (run_retrieve "river" 5) self2 = Raise (IndexError "index out of bounds").
Proof. repeat split; vm_compute; reflexivity. Qed.

(** ** Rounding to binary64 *)

Section Binary64Facts.

Local Open Scope Q_scope.

Lemma pow2_pos (e : Z) : 0 < pow2 e.
Proof. apply Qpower_0_lt. reflexivity. Qed.

Lemma pow2_add (a b : Z) : pow2 (a + b) == pow2 a * pow2 b.
Proof. apply Qpower_plus. discriminate. Qed.

Lemma pow2_succ (a : Z) : pow2 (a + 1) == 2 * pow2 a.
Proof. rewrite pow2_add. change (pow2 1) with 2. ring. Qed.


Lemma pow2_lt (a b : Z) : (a < b)%Z -> pow2 a < pow2 b.
Proof. intros H. apply Qpower_lt_compat_l; [exact H|reflexivity]. Qed.

Lemma pow2_lt_inv (a b : Z) : pow2 a < pow2 b -> (a < b)%Z.
Proof. intros H. apply (Qpower_lt_compat_l_inv 2); [exact H|reflexivity]. Qed.

Lemma pow2_Z (a : Z) : (0 <= a)%Z -> pow2 a == inject_Z (2 ^ a).
Proof. intros H. unfold pow2. now rewrite Zpower_Qpower. Qed.

Lemma log2_bounds (n : Z) :
  (0 < n)%Z ->
  pow2 (Z.log2 n) <= inject_Z n /\ inject_Z n < 2 * pow2 (Z.log2 n).
Proof.
  intros Hn. destruct (Z.log2_spec n Hn) as [Hlo Hhi].
  pose proof (Z.log2_nonneg n) as Ha.
  rewrite <- pow2_succ. rewrite !pow2_Z by lia.
  rewrite <- Zle_Qle, <- Zlt_Qlt. split; [exact Hlo|].
  now rewrite <- Z.add_1_r in Hhi.
Qed.

(** [ilog2 x] is the integer part of the binary logarithm. *)
Lemma ilog2_spec (x : Q) :
  0 < x -> pow2 (ilog2 x) <= x /\ x < pow2 (ilog2 x + 1).
Proof.
  intros Hx. destruct x as [n d].
  assert (Hn : (0 < n)%Z) by (unfold Qlt in Hx; simpl in Hx; lia).
  destruct (log2_bounds n Hn) as [Hn1 Hn2].
  destruct (log2_bounds (Zpos d) ltac:(lia)) as [Hd1 Hd2].
  unfold ilog2. cbn [Qnum Qden].
  set (a := Z.log2 n) in *. set (b := Z.log2 (Zpos d)) in *.
  assert (Hl : pow2 (a - b) * pow2 b == pow2 a)
    by (rewrite <- pow2_add; now replace (a - b + b)%Z with a by lia).
  assert (Hx' : (n # d) * inject_Z (Zpos d) == inject_Z n).
  { rewrite (Qmake_Qdiv n d). field. discriminate. }
  pose proof (pow2_pos a) as Pa. pose proof (pow2_pos b) as Pb.
  pose proof (pow2_pos (a - b)) as Pl.
  assert (PD : 0 < inject_Z (Zpos d)) by (rewrite <- (Zlt_Qlt 0); lia).
  destruct (Qle_bool (pow2 (a - b)) (n # d)) eqn:E.
  - apply Qle_bool_iff in E. split; [exact E|].
    rewrite pow2_succ. nra.
  - assert (E' : (n # d) < pow2 (a - b)).
    { apply Qnot_le_lt. intros H. apply Qle_bool_iff in H. congruence. }
    replace (a - b - 1 + 1)%Z with (a - b)%Z by lia.
    split; [|exact E'].
    assert (Hm : 2 * pow2 (a - b - 1) == pow2 (a - b))
      by (rewrite <- pow2_succ; now replace (a - b - 1 + 1)%Z with (a - b)%Z by lia).
    pose proof (pow2_pos (a - b - 1)) as Pm. nra.
Qed.





Lemma rhe_comp (p q : Q) : p == q -> rhe p = rhe q.
Proof.
  intros H. unfold rhe. rewrite (Qfloor_comp p q H).
  assert (E : Qcompare (p - inject_Z (Qfloor q)) (1 # 2)
              = Qcompare (q - inject_Z (Qfloor q)) (1 # 2))
    by (apply Qcompare_comp; [rewrite H|]; reflexivity).
  now rewrite E.
Qed.



Lemma round64_eq (x : Q) :
  round64 x == inject_Z (rhe (x / pow2 (exponent x))) * pow2 (exponent x).
Proof. unfold round64. apply Qred_correct. Qed.






Lemma round64_zero (x : Q) : x == 0 -> round64 x == 0.
Proof.
  intros E. rewrite round64_eq. rewrite (rhe_comp _ 0).
  - change (rhe 0) with 0%Z. change (inject_Z 0) with 0. ring.
  - unfold Qdiv. transitivity (0 * / pow2 (exponent x)); [|ring].
    apply Qmult_comp; [exact E|reflexivity].
Qed.

Lemma ilog2_unique (x : Q) (l : Z) :
  0 < x -> pow2 l <= x -> x < pow2 (l + 1) -> ilog2 x = l.
Proof.
  intros Hx H1 H2. destruct (ilog2_spec x Hx) as [H3 H4].
  assert (Ha : pow2 l < pow2 (ilog2 x + 1)) by lra.
  assert (Hb : pow2 (ilog2 x) < pow2 (l + 1)) by lra.
  apply pow2_lt_inv in Ha, Hb. lia.
Qed.

(** Rounding does not depend on how the fraction is written. *)
Lemma round64_comp (x y : Q) : x == y -> round64 x == round64 y.
Proof.
  intros E. destruct (Qeq_dec x 0) as [Z0|N0].
  - rewrite (round64_zero x Z0). symmetry. apply round64_zero. now rewrite <- E.
  - assert (Hx : 0 < Qabs.Qabs x).
    { pose proof (Qabs.Qabs_nonneg x) as H. apply Qle_lt_or_eq in H as [H|H]; [exact H|].
      exfalso. apply N0. symmetry in H.
      revert H. apply Qabs.Qabs_case; intros; lra. }
    assert (Ee : exponent x = exponent y).
    { unfold exponent. f_equal. f_equal.
      destruct (ilog2_spec _ Hx) as [H1 H2].
      symmetry. apply ilog2_unique; rewrite <- ?E; assumption. }
    rewrite !round64_eq, <- Ee.
    rewrite (rhe_comp (x / pow2 (exponent x)) (y / pow2 (exponent x))); [reflexivity|].
    unfold Qdiv. apply Qmult_comp; [exact E|reflexivity].
Qed.






End Binary64Facts.

(** ** Context booster *)

Section BoostFacts.

Local Open Scope Q_scope.

Lemma nth_set_nth (i j : nat) (x : Q) (l : list Q) :
  nth j (set_nth i x l) 0 =
  if (j =? i)%nat && (i <? List.length l)%nat then x else nth j l 0.
Proof.
  revert i j; induction l as [|y l IH]; intros i j.
  - destruct i, j; simpl; rewrite ?andb_false_r; reflexivity.
  - destruct i as [|i], j as [|j]; simpl; try reflexivity.
    rewrite IH. reflexivity.
Qed.

(** The loop multiplies the score of each document by its factor and
    leaves the other entries alone. *)
Lemma boost_loop_nth (query_lower : string) (docs : list Document) :
  forall (i : nat) (b b' : list Q),
    boost_loop query_lower docs i b = Ok b' ->
    forall (j : nat) (d : Document),
      nth_error docs j = Some d ->
      nth (i + j) b' 0
      = fmul (nth (i + j) b 0) (boost_factor query_lower (lower (page_content d))).
Proof.
  induction docs as [|doc rest IH]; intros i b b' H j d Hd.
  - destruct j; discriminate.
  - cbn [boost_loop] in H.
    destruct (nth_error b i) as [x|] eqn:Ex; [|discriminate].
    assert (Hi : (i < List.length b)%nat) by (apply nth_error_Some; congruence).
    destruct j as [|j].
    + inversion Hd; subst d. rewrite Nat.add_0_r.
      assert (Hkeep : forall (docs' : list Document) (n : nat) (c c' : list Q),
                 boost_loop query_lower docs' n c = Ok c' ->
                 (i < n)%nat -> nth i c' 0 = nth i c 0).
      { clear. induction docs' as [|e docs' IHd]; intros n c c' H Hlt.
        - now inversion H.
        - cbn [boost_loop] in H. destruct (nth_error c n); [|discriminate].
          rewrite (IHd _ _ _ H) by lia. rewrite nth_set_nth.
          replace (i =? n)%nat with false by (symmetry; apply Nat.eqb_neq; lia).
          reflexivity. }
      rewrite (Hkeep _ _ _ _ H) by lia. rewrite nth_set_nth.
      rewrite Nat.eqb_refl. apply Nat.ltb_lt in Hi. rewrite Hi. cbn [andb].
      now rewrite (nth_error_nth _ _ 0 Ex).
    + cbn [nth_error] in Hd.
      replace (i + S j)%nat with (S i + j)%nat by lia.
      rewrite (IH _ _ _ H j d Hd). rewrite nth_set_nth.
      replace (S i + j =? i)%nat with false by (symmetry; apply Nat.eqb_neq; lia).
      reflexivity.
Qed.

Lemma boost_terms_cons (by_factor : Q) (t : string) (terms : list string)
  (q d : string) (a : Q) :
  boost_terms by_factor (t :: terms) q d a
  = boost_terms by_factor terms q d
      (if contains t q && contains t d then fmul a by_factor else a).
Proof. reflexivity. Qed.












End BoostFacts.




(** ** The scoring kernels in exact arithmetic *)

Section ExactKernelFacts.

Import ExactKernels.
Local Open Scope R_scope.
















End ExactKernelFacts.

(** ** The scoring kernels in binary64 *)

Section FloatKernelFacts.

Import Floats.
Import FloatKernels.
Local Open Scope float_scope.

(** The literals of the booster are the doubles the machine reads, and
    the rounded products of [Binary64] are the products of the machine:
    the factor of the Texas row and its boosted score, and a product
    among the subnormal numbers. *)
Example boost_literals :
  map to_Q [0x1.8p+0; 0x1.4cccccccccccdp+0; 0x1.3333333333333p+0; 0x1.6666666666666p-1]
  = [boost_state; boost_health; boost_location; penalty_county].
Proof. vm_compute. reflexivity. Qed.

Example boost_products :
  to_Q (0x1p-1 * (0x1p+0 * 0x1.8p+0 * 0x1.4cccccccccccdp+0 * 0x1.3333333333333p+0
                  * 0x1.6666666666666p-1))
  = fmul (1 # 2) (factor_of 1 1 true true) /\
  to_Q (0x1p-1 * (0x1p+0 * 0x1.8p+0 * 0x1.4cccccccccccdp+0 * 0x1.3333333333333p+0
                  * 0x1.6666666666666p-1))
  = to_Q 0x1.a353f7ced9169p-1 /\
  to_Q (0x1p-1074 * (0x1p+0 * 0x1.8p+0 * 0x1.3333333333333p+0 * 0x1.6666666666666p-1))
  = fmul (pow2 (-1074)) (factor_of 1 0 true true) /\
  to_Q (0x1.5555555555555p-2 * 0x1.4cccccccccccdp+0)
  = fmul (to_Q 0x1.5555555555555p-2) boost_health /\
  to_Q 0x1.2b851eb851eb9p+0 = 5269211564023481 # 4503599627370496 /\
  to_Q 0x1p-1074 = pow2 (-1074).
Proof. repeat split; vm_compute; reflexivity. Qed.


End FloatKernelFacts.



(** * Further properties of the retriever *)

(** ** The store and the index under [add_documents] *)

Section StoreFacts.

Variable stop_words : list string.
Variable idf_weight : nat -> nat -> Q.
Variable tfidf_row : list Q -> list nat -> list Q.
Variable argsort : list Q -> list nat.

(** What a fit that succeeds leaves behind. *)
Lemma fit_transform_ok (raw : list string) (self self' : EmbeddingRetriever) (X : matrix) :
  fit_transform stop_words idf_weight tfidf_row argsort raw self = (Ok X, self') ->
  exists v idf,
    fitted (vectorizer self') = Some v /\
    idf_ v = Some idf /\
    vocabulary_ v <> [] /\
    2 <= List.length raw /\
    X = map (fun terms =>
               tfidf_row idf (map (fun t => count_term t terms) (vocabulary_ v)))
          (map (analyze stop_words) raw).
Proof.
  destruct self as [[mf fit] emb docs]. run_method.
  destruct (dedup [] (List.concat (map (analyze stop_words) raw))) as [|t ts];
    [discriminate|].
  destruct (95 * List.length raw <? 100 * 1) eqn:En; [discriminate|].
  destruct (limit_features argsort mf (List.length raw) _ _) as [|u us] eqn:Ek;
    [discriminate|].
  intros H; inversion H; subst; clear H. cbn [vectorizer fitted].
  eexists _, _. split; [reflexivity|]. cbn [vocabulary_ idf_].
  split; [reflexivity|]. split; [discriminate|]. split; [|reflexivity].
  apply Nat.ltb_ge in En. lia.
Qed.

(** X1.  [add_documents] appends to the store in every case: after the
    call the store is the old store followed by the new documents, in
    their order, whether the call returns or raises. *)
Theorem add_documents_appends (docs : list Document) (self : EmbeddingRetriever) :
  documents (state_after (add_documents stop_words idf_weight tfidf_row argsort docs) self)
  = documents self ++ docs.
Proof.
  unfold state_after. rewrite add_documents_unfold. cbv zeta. unfold bind.
  destruct (fit_transform _ _ _ _ _ _) as [r self'] eqn:Efit.
  apply fit_transform_rows in Efit as (Hd & _ & _).
  cbn [documents] in Hd.
  destruct r as [X|e]; cbn [snd]; [|exact Hd].
  unfold set_embeddings. cbn [snd documents]. exact Hd.
Qed.

(** A vectorizer whose transformer is fresh fits no query. *)
Lemma transform_fresh_tfidf (cosine : list Q -> list Q -> Q)
  (query : string) (k : Z) (self : EmbeddingRetriever) (v : TfidfVectorizer) :
  vectorizer self = fresh_tfidf v ->
  documents self <> [] -> embeddings self <> None ->
  exists msg,
    returned (retrieve stop_words tfidf_row cosine argsort query k) self
    = Raise (NotFittedError msg).
Proof.
  destruct self as [v' emb docs]. cbn [vectorizer documents embeddings].
  intros -> Hd He. destruct docs as [|d docs]; [congruence|].
  destruct emb as [X|]; [|congruence].
  destruct v as [mf [[voc idf]|]]; run_method; cbn [vocabulary_ idf_];
    eexists; reflexivity.
Qed.

(** X2.  When [add_documents] raises, the matrix is what it was before
    the call, the store has grown, and the vectorizer is left with a
    fresh transformer: its vocabulary is the old one, its idf vector is
    gone.  A retriever that held a matrix therefore answers no query
    any more: [retrieve] raises [NotFittedError]. *)
Theorem add_documents_raise_unfits
  (docs : list Document) (self : EmbeddingRetriever) (e : exn) :
  returned (add_documents stop_words idf_weight tfidf_row argsort docs) self = Raise e ->
  embeddings (state_after (add_documents stop_words idf_weight tfidf_row argsort docs) self)
  = embeddings self /\
  vectorizer (state_after (add_documents stop_words idf_weight tfidf_row argsort docs) self)
  = fresh_tfidf (vectorizer self) /\
  (embeddings self <> None -> documents self ++ docs <> [] ->
   forall (cosine : list Q -> list Q -> Q) (query : string) (k : Z),
   exists msg,
     returned (retrieve stop_words tfidf_row cosine argsort query k)
       (state_after (add_documents stop_words idf_weight tfidf_row argsort docs) self)
     = Raise (NotFittedError msg)).
Proof.
  intros Hraise.
  assert (H : embeddings
                (state_after (add_documents stop_words idf_weight tfidf_row argsort docs) self)
              = embeddings self /\
              vectorizer
                (state_after (add_documents stop_words idf_weight tfidf_row argsort docs) self)
              = fresh_tfidf (vectorizer self) /\
              documents
                (state_after (add_documents stop_words idf_weight tfidf_row argsort docs) self)
              = documents self ++ docs).
  { revert Hraise. unfold returned, state_after.
    rewrite add_documents_unfold. cbv zeta. unfold bind.
    destruct (fit_transform _ _ _ _ _ _) as [r self'] eqn:Efit.
    apply fit_transform_rows in Efit as (Hd & He & Hr).
    destruct r as [X|e']; cbn [fst snd]; [discriminate|].
    intros _. cbn [embeddings vectorizer documents] in *. auto. }
  destruct H as (He & Hv & Hd). split; [exact He|]. split; [exact Hv|].
  intros Hemb Hdocs cosine query k.
  apply (transform_fresh_tfidf cosine query k _ (vectorizer self)); congruence.
Qed.

End StoreFacts.

Lemma add_documents_raise_unfits_witness :
  let self := state_after (run_add_documents [row "0" "river"; row "1" "tower"])
                (new_retriever 5000) in
  let docs := repeat (row "2" "river tower") 39 in
  returned (run_retrieve "river" 5) self = Ok [(row "0" "river", 1%Q)] /\
  embeddings (state_after (run_add_documents docs) self) = embeddings self /\
  vectorizer (state_after (run_add_documents docs) self) = fresh_tfidf (vectorizer self) /\
  exists msg,
    returned (run_retrieve "river" 5) (state_after (run_add_documents docs) self)
    = Raise (NotFittedError msg).
Proof.
  cbv zeta.
  destruct (add_documents_raise_unfits stop_words_excerpt unit_idf count_row
              stable_argsort (repeat (row "2" "river tower") 39)
              (state_after (run_add_documents [row "0" "river"; row "1" "tower"])
                 (new_retriever 5000))
              (ValueError "After pruning, no terms remain. Try a lower min_df or a higher max_df."))
    as (He & Hv & Hr).
  - vm_compute. reflexivity.
  - split; [vm_compute; reflexivity|]. split; [exact He|]. split; [exact Hv|].
    apply Hr; vm_compute; discriminate.
Defined.

Section SequenceFacts.

Variable stop_words : list string.
Variable idf_weight : nat -> nat -> Q.
Variable tfidf_row : list Q -> list nat -> list Q.
Variable argsort : list Q -> list nat.

Lemma add_each_aligned (batches : list (list Document)) :
  forall self : EmbeddingRetriever,
    aligned self ->
    returned (add_each (add_documents stop_words idf_weight tfidf_row argsort) batches) self
    = Ok tt ->
    aligned (state_after
               (add_each (add_documents stop_words idf_weight tfidf_row argsort) batches) self) /\
    documents (state_after
                 (add_each (add_documents stop_words idf_weight tfidf_row argsort) batches) self)
    = documents self ++ List.concat batches.
Proof.
  induction batches as [|batch rest IH]; intros self Hal.
  - intros _. cbn. split; [exact Hal|]. now rewrite app_nil_r.
  - unfold returned, state_after. cbn [add_each]. unfold bind.
    destruct (add_documents _ _ _ _ batch self) as [r self1] eqn:E1.
    destruct r as [[]|e]; [|discriminate].
    pose proof (add_documents_keeps_aligned stop_words idf_weight tfidf_row argsort
                  batch self Hal) as H1.
    unfold returned, state_after in H1. rewrite E1 in H1. cbn [fst snd] in H1.
    destruct (H1 eq_refl) as [Hal1 Hd1].
    intros H. destruct (IH self1 Hal1 H) as [Hal2 Hd2].
    split; [exact Hal2|]. unfold state_after in Hd2. rewrite Hd2, Hd1.
    cbn [List.concat]. now rewrite app_assoc.
Qed.

(** X3.  Starting from a fresh retriever, as long as every call of
    [add_documents] has returned, the matrix has one row per stored
    document and the store holds the batches in the order they came. *)
Theorem add_each_from_fresh (limit : nat) (batches : list (list Document)) :
  returned (add_each (add_documents stop_words idf_weight tfidf_row argsort) batches)
    (new_retriever limit) = Ok tt ->
  aligned (state_after
             (add_each (add_documents stop_words idf_weight tfidf_row argsort) batches)
             (new_retriever limit)) /\
  documents (state_after
               (add_each (add_documents stop_words idf_weight tfidf_row argsort) batches)
               (new_retriever limit))
  = List.concat batches.
Proof.
  intros H. apply (add_each_aligned batches (new_retriever limit)); [reflexivity|exact H].
Qed.

End SequenceFacts.

Lemma add_each_from_fresh_witness :
  aligned (state_after (add_each run_add_documents [[river_0; tower_2]; [river_1]])
             (new_retriever 5000)) /\
  documents (state_after (add_each run_add_documents [[river_0; tower_2]; [river_1]])
               (new_retriever 5000))
  = List.concat [[river_0; tower_2]; [river_1]].
Proof.
  apply (add_each_from_fresh stop_words_excerpt unit_idf count_row stable_argsort
           5000 [[river_0; tower_2]; [river_1]]).
  vm_compute. reflexivity.
Defined.

(** ** The booster as a whole *)

Section BoosterFacts.

Local Open Scope Q_scope.

Lemma set_nth_length {A : Type} (i : nat) (x : A) (l : list A) :
  List.length (set_nth i x l) = List.length l.
Proof.
  revert i; induction l as [|y l IH]; intros [|i]; simpl; auto.
Qed.

Lemma boost_loop_length (query_lower : string) (docs : list Document) :
  forall (i : nat) (b b' : list Q),
    boost_loop query_lower docs i b = Ok b' -> List.length b' = List.length b.
Proof.
  induction docs as [|doc rest IH]; intros i b b' H; cbn [boost_loop] in H.
  - now inversion H.
  - destruct (nth_error b i); [|discriminate].
    rewrite (IH _ _ _ H). apply set_nth_length.
Qed.

Lemma boost_loop_fits (query_lower : string) (docs : list Document) :
  forall (i : nat) (b : list Q),
    (i + List.length docs <= List.length b)%nat ->
    exists b', boost_loop query_lower docs i b = Ok b'.
Proof.
  induction docs as [|doc rest IH]; intros i b H; cbn [boost_loop].
  - now exists b.
  - cbn [List.length] in H.
    destruct (nth_error b i) as [x|] eqn:E.
    + apply IH. rewrite set_nth_length. lia.
    + apply nth_error_None in E. lia.
Qed.

Lemma boost_loop_overrun (query_lower : string) (docs : list Document) :
  forall (i : nat) (b : list Q),
    (List.length b < i + List.length docs)%nat -> docs <> [] ->
    boost_loop query_lower docs i b = Raise (IndexError "index out of bounds").
Proof.
  induction docs as [|doc rest IH]; intros i b H Hne; [congruence|].
  cbn [boost_loop]. cbn [List.length] in H.
  destruct (nth_error b i) as [x|] eqn:E; [|reflexivity].
  assert (Hi : (i < List.length b)%nat) by (apply nth_error_Some; congruence).
  destruct rest as [|doc' rest']; [cbn [List.length] in H; lia|].
  apply IH; [rewrite set_nth_length; lia|discriminate].
Qed.

(** Entries the loop does not reach keep their value. *)
Lemma boost_loop_outside (query_lower : string) (docs : list Document) :
  forall (i : nat) (b b' : list Q) (j : nat),
    boost_loop query_lower docs i b = Ok b' ->
    (j < i \/ i + List.length docs <= j)%nat ->
    nth j b' 0 = nth j b 0.
Proof.
  induction docs as [|doc rest IH]; intros i b b' j H Hj; cbn [boost_loop] in H.
  - now inversion H.
  - destruct (nth_error b i); [|discriminate]. cbn [List.length] in Hj.
    rewrite (IH _ _ _ j H) by lia. rewrite nth_set_nth.
    replace (j =? i)%nat with false by (symmetry; apply Nat.eqb_neq; lia).
    reflexivity.
Qed.

(** Without any listed term in the query, the multiplier is 1. *)
Lemma boost_terms_silent (by_factor : Q) (terms : list string) (q d : string) (a : Q) :
  Forall (fun t => contains t q = false) terms ->
  boost_terms by_factor terms q d a = a.
Proof.
  intros H; revert a; induction H as [|t terms Ht H IH]; intros a; [reflexivity|].
  rewrite boost_terms_cons, Ht. cbn [andb]. apply IH.
Qed.

End BoosterFacts.

Lemma apply_context_boost_pointwise
  (similarities boosted : list Q) (query : string) (self : EmbeddingRetriever) :
  returned (_apply_context_boost similarities query) self = Ok boosted ->
  List.length boosted = List.length similarities /\
  (forall i d, nth_error (documents self) i = Some d ->
     nth i boosted 0%Q
     = fmul (nth i similarities 0%Q) (boost_factor (lower query) (lower (page_content d)))) /\
  (forall i, List.length (documents self) <= i ->
     nth i boosted 0%Q = nth i similarities 0%Q).
Proof.
  unfold returned, _apply_context_boost. cbn [fst]. intros H. repeat split.
  - now apply boost_loop_length in H.
  - intros i d Hd. exact (boost_loop_nth _ _ 0 _ _ H i d Hd).
  - intros i Hi. apply (boost_loop_outside _ _ 0 _ _ i H). right. cbn. exact Hi.
Qed.

(** X4.  [_apply_context_boost] returns exactly when there is a score
    for every stored document, and then the vector keeps its length;
    with more documents than scores it raises [IndexError]. *)
Theorem apply_context_boost_bounds
  (similarities : list Q) (query : string) (self : EmbeddingRetriever) :
  (List.length (documents self) <= List.length similarities ->
   exists boosted,
     returned (_apply_context_boost similarities query) self = Ok boosted /\
     List.length boosted = List.length similarities) /\
  (List.length similarities < List.length (documents self) ->
   returned (_apply_context_boost similarities query) self
   = Raise (IndexError "index out of bounds")).
Proof.
  unfold returned, _apply_context_boost. cbn [fst]. split; intros H.
  - destruct (boost_loop_fits (lower query) (documents self) 0 similarities H)
      as [boosted Hb].
    exists boosted. split; [exact Hb|]. now apply boost_loop_length in Hb.
  - apply boost_loop_overrun; [exact H|].
    destruct (documents self); [cbn in H; lia|discriminate].
Qed.



(** X6.  A query that contains none of the listed state, health and
    location terms is not re-ranked: every boosted score equals the raw
    score, the product of a double and 1.0 being that double. *)
Theorem apply_context_boost_silent
  (similarities boosted : list Q) (query : string) (self : EmbeddingRetriever) :
  Forall (fun t => contains t (lower query) = false)
    (states ++ health_terms ++ location_terms) ->
  Forall is_double similarities ->
  returned (_apply_context_boost similarities query) self = Ok boosted ->
  List.length boosted = List.length similarities /\
  forall i, (nth i boosted 0 == nth i similarities 0)%Q.
Proof.
  intros Hq Hdbl H.
  apply Forall_app in Hq as [Hs Hq]. apply Forall_app in Hq as [Hh Hl].
  assert (Hone : forall d, boost_factor (lower query) d = 1%Q).
  { intros d. unfold boost_factor. cbv zeta.
    rewrite !boost_terms_silent by assumption.
    assert (Hloc : existsb (fun loc => contains loc (lower query)) location_terms = false).
    { rewrite <- not_true_iff_false. intros He.
      apply existsb_exists in He as (t & Hin & Ht).
      rewrite Forall_forall in Hl. rewrite (Hl t Hin) in Ht. discriminate. }
    rewrite Hloc. cbn [andb].
    assert (Hc : contains "county" (lower query) = false).
    { rewrite Forall_forall in Hl. apply Hl. simpl. tauto. }
    now rewrite Hc. }
  destruct (apply_context_boost_pointwise similarities boosted query self H)
    as (Hlen & Hin & Hout).
  split; [exact Hlen|]. intros i.
  destruct (nth_error (documents self) i) as [d|] eqn:Ed.
  - rewrite (Hin i d Ed), Hone. unfold fmul.
    rewrite (round64_comp _ (nth i similarities 0%Q)) by apply Qmult_1_r.
    destruct (Nat.lt_ge_cases i (List.length similarities)) as [Hi|Hi].
    + rewrite Forall_forall in Hdbl. apply Hdbl. now apply nth_In.
    + rewrite nth_overflow by exact Hi. apply round64_zero. reflexivity.
  - apply nth_error_None in Ed. rewrite (Hout i Ed). reflexivity.
Qed.

Lemma apply_context_boost_silent_witness :
  List.length [1 # 2; 1 # 4] = List.length [1 # 2; 1 # 4] /\
  forall i, (nth i [1 # 2; 1 # 4] 0 == nth i [1 # 2; 1 # 4] 0)%Q.
Proof.
  apply (apply_context_boost_silent [1 # 2; 1 # 4] [1 # 2; 1 # 4] "river bridge" two_rows).
  - repeat (constructor; [reflexivity|]). constructor.
  - repeat (constructor; [vm_compute; reflexivity|]). constructor.
  - vm_compute. reflexivity.
Defined.

(** ** [retrieve] as a whole *)

Section RetrieveMore.

Variable stop_words : list string.
Variable idf_weight : nat -> nat -> Q.
Variable tfidf_row : list Q -> list nat -> list Q.
Variable cosine : list Q -> list Q -> Q.
Variable argsort : list Q -> list nat.

(** Past its guard, [retrieve] ranks the boosted scores. *)
Lemma retrieve_by_scores (query : string) (k : Z) (self : EmbeddingRetriever)
  (results : list (Document * Q)) :
  returned (retrieve stop_words tfidf_row cosine argsort query k) self = Ok results ->
  ((documents self = [] \/ embeddings self = None) /\ results = []) \/
  exists boosted,
    returned (boosted_scores stop_words tfidf_row cosine query) self = Ok boosted /\
    collect_results (documents self) boosted (top_indices argsort boosted k) = Ok results.
Proof.
  destruct self as [[mf fit] emb docs].
  destruct docs as [|d docs]; [intros H; left; split; [now left|now inversion H]|].
  destruct emb as [X|]; [|intros H; left; split; [now right|now inversion H]].
  destruct fit as [[voc [idf|]]|]; [|discriminate|discriminate].
  unfold boosted_scores. run_method. cbn [vocabulary_ idf_].
  destruct (cosine_similarity _ _ X) as [sims|e]; [|discriminate].
  destruct (boost_loop _ (d :: docs) 0 sims) as [boosted|e] eqn:Eb;
    [|discriminate].
  intros H. right. now exists boosted.
Qed.

Lemma collect_results_fits (docs : list Document) (boosted : list Q) (top : list nat) :
  List.length docs <= List.length boosted ->
  exists results, collect_results docs boosted top = Ok results.
Proof.
  intros Hlen. induction top as [|idx rest [r IH]]; cbn [collect_results];
    [now exists []|].
  destruct (nth_error docs idx) as [doc|] eqn:Ed; [|now exists r].
  assert (Hi : idx < List.length docs) by (apply nth_error_Some; congruence).
  destruct (nth_error boosted idx) as [score|] eqn:Eb.
  - rewrite IH. destruct (Qpositive score); eauto.
  - apply nth_error_None in Eb. lia.
Qed.

(** On a retriever that is ready, nothing in [retrieve] can raise. *)
Lemma retrieve_ready (query : string) (k : Z) (self : EmbeddingRetriever) :
  (forall idf counts, List.length (tfidf_row idf counts) = List.length counts) ->
  ready self ->
  exists results,
    returned (retrieve stop_words tfidf_row cosine argsort query k) self = Ok results.
Proof.
  intros Hrow (v & idf & X & Hv & Hidf & HX & Hvoc & Hlen & Hcols).
  destruct self as [[mf fit] emb docs]. cbn [vectorizer fitted embeddings documents] in *.
  subst fit emb.
  destruct docs as [|d docs]; [now exists []|].
  run_method. rewrite Hidf.
  remember (tfidf_row idf
              (map (fun t => count_term t
                               (analyze stop_words (_enhance_query_for_retrieval query)))
                 (vocabulary_ v))) as row eqn:Erow.
  assert (Hr : List.length row = List.length (vocabulary_ v))
    by (subst row; now rewrite Hrow, length_map).
  clear Erow.
  assert (Hcos : cosine_similarity cosine row X = Ok (map (cosine row) X)).
  { unfold cosine_similarity.
    destruct X as [|x X']; [discriminate|].
    destruct row as [|a row'].
    - destruct (vocabulary_ v); [congruence|discriminate].
    - replace (forallb (fun r => List.length r =? List.length (a :: row')) (x :: X'))
        with true; [reflexivity|].
      symmetry. apply forallb_forall. intros r Hin. apply Nat.eqb_eq.
      rewrite Forall_forall in Hcols. now rewrite (Hcols r Hin). }
  rewrite Hcos.
  destruct (boost_loop_fits (lower query) (d :: docs) 0 (map (cosine row) X))
    as [boosted Hb]; [rewrite length_map; cbn [Nat.add]; lia|].
  rewrite Hb.
  apply collect_results_fits.
  apply boost_loop_length in Hb. rewrite Hb, length_map. lia.
Qed.

(** A call of [add_documents] that returns leaves the retriever ready. *)
Lemma add_documents_ready (docs : list Document) (self : EmbeddingRetriever) :
  (forall idf counts, List.length (tfidf_row idf counts) = List.length counts) ->
  aligned self ->
  returned (add_documents stop_words idf_weight tfidf_row argsort docs) self = Ok tt ->
  ready (state_after (add_documents stop_words idf_weight tfidf_row argsort docs) self).
Proof.
  intros Hrow Hal. unfold returned, state_after.
  rewrite add_documents_refits_all by exact Hal. unfold bind.
  destruct (fit_transform _ _ _ _ _ _) as [r self'] eqn:Efit.
  destruct r as [X|e]; cbn [fst snd]; [intros _|discriminate].
  pose proof (fit_transform_rows _ _ _ _ _ _ _ _ Efit) as (Hd & _ & Hr).
  destruct (fit_transform_ok _ _ _ _ _ _ _ _ Efit) as (v & idf & Hv & Hidf & Hvoc & _ & HX).
  cbn [documents] in Hd.
  exists v, idf, X. unfold set_embeddings. cbn [snd vectorizer embeddings documents].
  repeat split; auto.
  - rewrite Hr, Hd. apply length_map.
  - rewrite HX. apply Forall_map, Forall_forall. intros terms _.
    now rewrite Hrow, length_map.
Qed.

(** X7.  Indexing and retrieval compose: when [add_documents] has
    returned on an aligned retriever (a fresh one, or one all of whose
    earlier calls returned), [retrieve] raises for no query and no [k].
    The rows of the vectorizer have one entry per feature. *)
Theorem retrieve_after_add_documents
  (docs : list Document) (self : EmbeddingRetriever) (query : string) (k : Z) :
  (forall idf counts, List.length (tfidf_row idf counts) = List.length counts) ->
  aligned self ->
  returned (add_documents stop_words idf_weight tfidf_row argsort docs) self = Ok tt ->
  exists results,
    returned (retrieve stop_words tfidf_row cosine argsort query k)
      (state_after (add_documents stop_words idf_weight tfidf_row argsort docs) self)
    = Ok results.
Proof.
  intros Hrow Hal Hadd. apply retrieve_ready; [exact Hrow|].
  now apply add_documents_ready.
Qed.

End RetrieveMore.

Lemma count_row_length (idf : list Q) (counts : list nat) :
  List.length (count_row idf counts) = List.length counts.
Proof. apply length_map. Qed.

Lemma retrieve_after_add_documents_witness :
  exists results,
    returned (run_retrieve "river" 2)
      (state_after (run_add_documents [river_0; river_1; tower_2]) (new_retriever 5000))
    = Ok results.
Proof.
  apply (retrieve_after_add_documents stop_words_excerpt unit_idf count_row dot
           stable_argsort [river_0; river_1; tower_2] (new_retriever 5000) "river" 2).
  - exact count_row_length.
  - reflexivity.
  - vm_compute. reflexivity.
Defined.

(** ** The ranking *)

Section RankingFacts.

Lemma StronglySorted_app_cross {A : Type} (R : A -> A -> Prop) (l1 l2 : list A) :
  StronglySorted R (l1 ++ l2) ->
  forall x y, In x l1 -> In y l2 -> R x y.
Proof.
  induction l1 as [|a l1 IH]; intros H x y Hx Hy; [contradiction|].
  cbn in H. apply StronglySorted_inv in H as [Hs Ha].
  destruct Hx as [->|Hx]; [|now apply IH].
  rewrite Forall_forall in Ha. apply Ha, in_or_app. now right.
Qed.

Lemma NoDup_skipn {A : Type} (n : nat) (l : list A) : NoDup l -> NoDup (skipn n l).
Proof.
  intros H. rewrite <- (firstn_skipn n l) in H. now apply NoDup_app_remove_l in H.
Qed.

Lemma slice_from_everything {A : Type} (k : Z) (a : list A) :
  (k = 0 \/ Z.of_nat (List.length a) <= k)%Z -> slice_from (- k) a = a.
Proof.
  intros [->|Hk]; [apply slice_from_zero|].
  unfold slice_from. cbv zeta.
  destruct (- k <? 0)%Z eqn:E.
  - now rewrite Z.max_l by lia.
  - apply Z.ltb_ge in E.
    assert (Ha : List.length a = 0%nat) by lia.
    destruct a; [now destruct (Z.to_nat _)|discriminate].
Qed.

Variable stop_words : list string.
Variable tfidf_row : list Q -> list nat -> list Q.
Variable cosine : list Q -> list Q -> Q.
Variable argsort : list Q -> list nat.

Hypothesis argsort_indices : lists_indices argsort.

Lemma top_indices_NoDup (boosted : list Q) (k : Z) :
  NoDup (top_indices argsort boosted k).
Proof.
  unfold top_indices.
  destruct (slice_from_skipn (- k) (argsort boosted)) as [n ->].
  apply NoDup_rev, NoDup_skipn.
  apply (Permutation_NoDup (Permutation_sym (argsort_indices boosted))), seq_NoDup.
Qed.

(** A stored document with a positive score is among the indices
    [argsort] gives. *)
Lemma positive_index_sorted (docs : list Document) (boosted : list Q) (i : nat) :
  (0 < nth i boosted 0)%Q -> In i (argsort boosted).
Proof.
  intros Hp.
  apply (Permutation_in _ (Permutation_sym (argsort_indices boosted))).
  apply in_seq. split; [lia|]. cbn.
  destruct (Nat.lt_ge_cases i (List.length boosted)) as [H|H]; [exact H|].
  rewrite (nth_overflow _ _ H) in Hp. now apply Qlt_irrefl in Hp.
Qed.

Lemma kept_indices_In (docs : list Document) (boosted : list Q) (top : list nat)
  (i : nat) (d : Document) :
  nth_error docs i = Some d -> (0 < nth i boosted 0)%Q -> In i top ->
  In (d, nth i boosted 0%Q) (map (pair_at docs boosted) (kept_indices docs boosted top)).
Proof.
  intros Hd Hp Hin. apply in_map_iff. exists i. split.
  - unfold pair_at. now rewrite (nth_error_nth _ _ no_document Hd).
  - apply filter_In. split; [exact Hin|].
    apply andb_true_iff. split.
    + apply Nat.ltb_lt, nth_error_Some. congruence.
    + now apply Qpositive_lt.
Qed.

(** X8.  [retrieve] returns distinct stored documents.  Past the guard,
    with [boosted] the scores that the query gets from the vectorizer,
    the cosine kernel and the booster, the pairs are those of indices
    of the store, no index twice, each document with its own entry of
    [boosted], which is positive. *)
Theorem retrieve_distinct_stored (query : string) (k : Z) (self : EmbeddingRetriever)
  (results : list (Document * Q)) :
  returned (retrieve stop_words tfidf_row cosine argsort query k) self = Ok results ->
  ((documents self = [] \/ embeddings self = None) /\ results = []) \/
  exists boosted idxs,
    returned (boosted_scores stop_words tfidf_row cosine query) self = Ok boosted /\
    NoDup idxs /\
    Forall (fun i => i < List.length (documents self) /\ (0 < nth i boosted 0)%Q) idxs /\
    results = map (pair_at (documents self) boosted) idxs /\
    Forall (fun r => In (fst r) (documents self)) results.
Proof.
  intros H. apply retrieve_by_scores in H as [H|(boosted & Hb & H)]; [now left|right].
  - apply collect_results_kept in H. subst results.
    exists boosted, (kept_indices (documents self) boosted (top_indices argsort boosted k)).
    split; [exact Hb|].
    assert (Hall : Forall (fun i => i < List.length (documents self)
                                    /\ (0 < nth i boosted 0)%Q)
                     (kept_indices (documents self) boosted
                        (top_indices argsort boosted k))).
    { apply Forall_forall. intros i Hi. apply filter_In in Hi as [_ Hi].
      apply andb_true_iff in Hi as [Hlt Hp]. split.
      - now apply Nat.ltb_lt. - now apply Qpositive_lt. }
    repeat split; [| exact Hall | ].
    + apply NoDup_filter, top_indices_NoDup.
    + apply Forall_map. eapply Forall_impl; [|exact Hall].
      intros i [Hi _]. cbn. now apply nth_In.
Qed.

Hypothesis argsort_sorted : forall v, StronglySorted (score_asc v) (argsort v).

(** X9.  [retrieve] returns the best: a stored document with a
    positive boosted score is either among the pairs returned or scores
    no more than every pair returned. *)
Theorem retrieve_best_first (query : string) (k : Z) (self : EmbeddingRetriever)
  (results : list (Document * Q)) :
  returned (retrieve stop_words tfidf_row cosine argsort query k) self = Ok results ->
  ((documents self = [] \/ embeddings self = None) /\ results = []) \/
  exists boosted,
    returned (boosted_scores stop_words tfidf_row cosine query) self = Ok boosted /\
    forall i d,
      nth_error (documents self) i = Some d -> (0 < nth i boosted 0)%Q ->
      In (d, nth i boosted 0%Q) results \/
      Forall (fun r => (nth i boosted 0 <= snd r)%Q) results.
Proof.
  intros H. apply retrieve_by_scores in H as [H|[boosted [Hb H]]]; [now left|].
  right. exists boosted. split; [exact Hb|]. intros i d Hd Hp.
  apply collect_results_kept in H. subst results.
  destruct (slice_from_skipn (- k) (argsort boosted)) as [n Hn].
  pose proof (positive_index_sorted (documents self) boosted i Hp) as Hin.
  rewrite <- (firstn_skipn n (argsort boosted)) in Hin.
  apply in_app_or in Hin as [Hlow|Hhigh].
  - right. apply Forall_map, Forall_forall. intros j Hj.
    apply filter_In in Hj as [Hj _]. unfold top_indices in Hj. rewrite Hn in Hj.
    apply in_rev in Hj. cbn.
    pose proof (argsort_sorted boosted) as Hs.
    rewrite <- (firstn_skipn n (argsort boosted)) in Hs.
    exact (StronglySorted_app_cross _ _ _ Hs i j Hlow Hj).
  - left. apply kept_indices_In; [exact Hd|exact Hp|].
    unfold top_indices. rewrite Hn. now apply in_rev in Hhigh.
Qed.

(** X10.  With [k = 0], or [k] at least the number of scores,
    [retrieve] returns every stored document whose boosted score is
    positive. *)
Theorem retrieve_all_positive (query : string) (k : Z) (self : EmbeddingRetriever)
  (results : list (Document * Q)) :
  returned (retrieve stop_words tfidf_row cosine argsort query k) self = Ok results ->
  ((documents self = [] \/ embeddings self = None) /\ results = []) \/
  exists boosted,
    returned (boosted_scores stop_words tfidf_row cosine query) self = Ok boosted /\
    ((k = 0 \/ Z.of_nat (List.length boosted) <= k)%Z ->
     forall i d,
       nth_error (documents self) i = Some d -> (0 < nth i boosted 0)%Q ->
       In (d, nth i boosted 0%Q) results).
Proof.
  intros H. apply retrieve_by_scores in H as [H|[boosted [Hb H]]]; [now left|].
  right. exists boosted. split; [exact Hb|]. intros Hk i d Hd Hp.
  apply collect_results_kept in H. subst results.
  apply kept_indices_In; [exact Hd|exact Hp|].
  unfold top_indices. rewrite slice_from_everything.
  - apply -> in_rev. now apply (positive_index_sorted (documents self)).
  - rewrite (Permutation_length (argsort_indices boosted)), length_seq. exact Hk.
Qed.

End RankingFacts.

Lemma insert_index_perm (v : list Q) (i : nat) (l : list nat) :
  Permutation (insert_index v i l) (i :: l).
Proof.
  induction l as [|j l IH]; cbn [insert_index]; [reflexivity|].
  destruct (Qle_bool (nth i v 0%Q) (nth j v 0%Q)); [reflexivity|].
  rewrite IH. apply perm_swap.
Qed.

Lemma stable_argsort_indices : lists_indices stable_argsort.
Proof.
  intros v. unfold stable_argsort.
  induction (seq 0 (List.length v)) as [|i l IH]; cbn [fold_right]; [reflexivity|].
  rewrite insert_index_perm. now constructor.
Qed.

Lemma retrieve_distinct_stored_witness :
  ((documents river_index = [] \/ embeddings river_index = None)
   /\ [(river_1, 1%Q); (river_0, 1%Q)] = []) \/
  exists boosted idxs,
    returned (boosted_scores stop_words_excerpt count_row dot "river") river_index
    = Ok boosted /\
    NoDup idxs /\
    Forall (fun i => i < List.length (documents river_index) /\ (0 < nth i boosted 0)%Q) idxs /\
    [(river_1, 1%Q); (river_0, 1%Q)] = map (pair_at (documents river_index) boosted) idxs /\
    Forall (fun r => In (fst r) (documents river_index)) [(river_1, 1%Q); (river_0, 1%Q)].
Proof.
  apply (retrieve_distinct_stored stop_words_excerpt count_row dot stable_argsort
           stable_argsort_indices "river" 2 river_index).
  vm_compute. reflexivity.
Defined.

Lemma retrieve_best_first_witness :
  ((documents river_index = [] \/ embeddings river_index = None)
   /\ [(river_1, 1%Q)] = []) \/
  exists boosted,
    returned (boosted_scores stop_words_excerpt count_row dot "river") river_index
    = Ok boosted /\
    forall i d,
      nth_error (documents river_index) i = Some d -> (0 < nth i boosted 0)%Q ->
      In (d, nth i boosted 0%Q) [(river_1, 1%Q)] \/
      Forall (fun r => (nth i boosted 0 <= snd r)%Q) [(river_1, 1%Q)].
Proof.
  apply (retrieve_best_first stop_words_excerpt count_row dot stable_argsort
           stable_argsort_indices stable_argsort_sorted "river" 1 river_index).
  vm_compute. reflexivity.
Defined.

Lemma retrieve_all_positive_witness :
  ((documents river_index = [] \/ embeddings river_index = None)
   /\ [(river_1, 1%Q); (river_0, 1%Q)] = []) \/
  exists boosted,
    returned (boosted_scores stop_words_excerpt count_row dot "river") river_index
    = Ok boosted /\
    ((5 = 0 \/ Z.of_nat (List.length boosted) <= 5)%Z ->
     forall i d,
       nth_error (documents river_index) i = Some d -> (0 < nth i boosted 0)%Q ->
       In (d, nth i boosted 0%Q) [(river_1, 1%Q); (river_0, 1%Q)]).
Proof.
  apply (retrieve_all_positive stop_words_excerpt count_row dot stable_argsort
           stable_argsort_indices "river" 5 river_index).
  vm_compute. reflexivity.
Defined.

(** ** Case of the query *)

Lemma lower_char_idem (c : ascii) : lower_char (lower_char c) = lower_char c.
Proof.
  destruct c as [b0 b1 b2 b3 b4 b5 b6 b7].
  destruct b0, b1, b2, b3, b4, b5, b6, b7; reflexivity.
Qed.

Lemma lower_idem (s : string) : lower (lower s) = lower s.
Proof.
  induction s as [|c s IH]; cbn [lower]; [reflexivity|].
  now rewrite lower_char_idem, IH.
Qed.

(** X11.  [retrieve] reads the query through [lower] only: two queries
    that differ in the case of their letters get the same answer, and
    the same outcome altogether. *)
Theorem retrieve_case_insensitive
  (stop_words : list string) (tfidf_row : list Q -> list nat -> list Q)
  (cosine : list Q -> list Q -> Q) (argsort : list Q -> list nat)
  (query1 query2 : string) (k : Z) (self : EmbeddingRetriever) :
  lower query1 = lower query2 ->
  retrieve stop_words tfidf_row cosine argsort query1 k self
  = retrieve stop_words tfidf_row cosine argsort query2 k self.
Proof.
  intros H.
  unfold retrieve, _enhance_query_for_retrieval, _apply_context_boost.
  now rewrite H.
Qed.

Lemma retrieve_case_insensitive_witness :
  run_retrieve "Obesity in COLORADO" 3 river_index
  = run_retrieve "obesity in Colorado" 3 river_index.
Proof.
  apply (retrieve_case_insensitive stop_words_excerpt count_row dot stable_argsort
           "Obesity in COLORADO" "obesity in Colorado" 3 river_index).
  reflexivity.
Defined.

(** ** The other steps of the query expander *)

Lemma fold_left_unchanged {A B : Type} (f : A -> B -> A) (l : list B) (a : A) :
  Forall (fun b => f a b = a) l -> fold_left f l a = a.
Proof.
  intros H; induction H as [|b l Hb H IH]; cbn [fold_left]; [reflexivity|].
  now rewrite Hb.
Qed.

(** X12.  A query in which no key of the two alias tables and none of
    the words "county", "state", "data", "information", "statistics"
    occurs is only lower-cased by the expander. *)
Theorem enhance_query_plain (query : string) :
  Forall (fun key => contains key (lower query) = false)
    (map fst state_mapping ++ map fst health_mapping
     ++ ["county"; "state"; "data"; "information"; "statistics"]) ->
  _enhance_query_for_retrieval query = lower query.
Proof.
  intros H. apply Forall_app in H as [Hs H]. apply Forall_app in H as [Hh Hw].
  unfold _enhance_query_for_retrieval.
  assert (E1 : apply_state_mappings (lower query) = lower query).
  { unfold apply_state_mappings. apply fold_left_unchanged.
    apply Forall_forall. intros [key abbr] Hin. unfold apply_state.
    rewrite Forall_forall in Hs.
    now rewrite (Hs key (in_map fst _ _ Hin)). }
  assert (E2 : apply_health_mappings (lower query) = lower query).
  { unfold apply_health_mappings. apply fold_left_unchanged.
    apply Forall_forall. intros [condition expanded] Hin. unfold apply_health.
    rewrite Forall_forall in Hh.
    now rewrite (Hh condition (in_map fst _ _ Hin)). }
  rewrite E1, E2. unfold add_context_keywords.
  inversion Hw as [|? ? Hcounty Hw1]; subst.
  inversion Hw1 as [|? ? Hstate Hw2]; subst.
  inversion Hw2 as [|? ? Hdata Hw3]; subst.
  inversion Hw3 as [|? ? Hinfo Hw4]; subst.
  inversion Hw4 as [|? ? Hstat _]; subst.
  rewrite Hcounty. cbv zeta. rewrite Hstate. cbn [existsb].
  now rewrite Hdata, Hinfo, Hstat.
Qed.

Lemma enhance_query_plain_witness :
  _enhance_query_for_retrieval "River Bridge" = lower "River Bridge".
Proof.
  apply (enhance_query_plain "River Bridge").
  repeat constructor.
Defined.

(** X13.  The keyword step only appends.  Its result starts with the
    text it was given, and a text that contains "county", "state", or
    one of "data", "information", "statistics" comes back with the
    matching column names in it. *)
Theorem add_context_keywords_appends (processed : string) :
  startswith processed (add_context_keywords processed) = true /\
  (contains "county" processed = true ->
   contains " CountyName CountyFIPS" (add_context_keywords processed) = true) /\
  (contains "state" processed = true ->
   contains " StateAbbr StateName" (add_context_keywords processed) = true) /\
  (existsb (fun word => contains word processed) ["data"; "information"; "statistics"]
   = true ->
   contains " TotalPopulation Data_Value Measure" (add_context_keywords processed) = true).
Proof.
  unfold add_context_keywords.
  set (p1 := if contains "county" processed
             then (processed ++ " CountyName CountyFIPS")%string else processed).
  set (p2 := if contains "state" p1
             then (p1 ++ " StateAbbr StateName")%string else p1).
  assert (S1 : exists x, p1 = (processed ++ x)%string).
  { unfold p1. destruct (contains "county" processed); eauto.
    exists ""%string. now rewrite append_empty_r. }
  assert (S2 : exists x, p2 = (p1 ++ x)%string).
  { unfold p2. destruct (contains "state" p1); eauto.
    exists ""%string. now rewrite append_empty_r. }
  destruct S1 as [x1 E1]. destruct S2 as [x2 E2].
  assert (C1 : forall w, contains w processed = true -> contains w p1 = true)
    by (intros w Hw; rewrite E1; now apply contains_append_l).
  assert (C2 : forall w, contains w p1 = true -> contains w p2 = true)
    by (intros w Hw; rewrite E2; now apply contains_append_l).
  assert (C3 : forall w, contains w p2 = true ->
     contains w (if existsb (fun word => contains word p2)
                      ["data"; "information"; "statistics"]
                 then (p2 ++ " TotalPopulation Data_Value Measure")%string else p2) = true).
  { intros w Hw. destruct (existsb _ _); [now apply contains_append_l|exact Hw]. }
  repeat split.
  - destruct (existsb _ _); rewrite E2, E1, ?append_assoc; apply startswith_append.
  - intros H. apply C3, C2. unfold p1. rewrite H.
    apply contains_append_r, contains_refl.
  - intros H. apply C3. unfold p2. rewrite (C1 _ H).
    apply contains_append_r, contains_refl.
  - intros H.
    assert (H2 : existsb (fun word => contains word p2)
                   ["data"; "information"; "statistics"] = true).
    { apply existsb_exists in H as (w & Hin & Hw).
      apply existsb_exists. exists w. split; [exact Hin|]. now apply C2, C1. }
    rewrite H2. apply contains_append_r, contains_refl.
Qed.

(** X14.  One turn of the health loop, for an entry
    [(condition, expanded)] of the table: a text without the condition
    is left as it is; otherwise every occurrence is replaced where it
    stands by the expansion, which the text then contains, and what
    precedes the leftmost occurrence is unchanged. *)
Theorem health_alias_step (processed condition expanded : string) :
  In (condition, expanded) health_mapping ->
  (contains condition processed = false ->
     apply_health processed (condition, expanded) = processed) /\
  (contains condition processed = true ->
     apply_health processed (condition, expanded) = replace condition expanded processed /\
     contains expanded (apply_health processed (condition, expanded)) = true) /\
  (forall x y : string,
     processed = (x ++ condition ++ y)%string ->
     no_match_before condition (String.length x) processed = true ->
     apply_health processed (condition, expanded)
     = (x ++ expanded ++ replace condition expanded y)%string).
Proof.
  intros Hin.
  assert (Hkey : condition <> ""%string).
  { unfold health_mapping in Hin. simpl in Hin.
    repeat (destruct Hin as [Hin|Hin]; [inversion Hin; discriminate|]).
    contradiction. }
  assert (Hrep : forall s, replace condition expanded s
                           = replace_scan condition expanded 0 s).
  { intros s. unfold replace. destruct condition; [congruence|reflexivity]. }
  unfold apply_health. repeat split.
  - intros ->. reflexivity.
  - now rewrite H.
  - rewrite H, Hrep. now apply replace_scan_contains.
  - intros x y -> Hbefore.
    assert (Hc : contains condition (x ++ condition ++ y) = true).
    { apply contains_split. now exists x, y. }
    rewrite Hc, !Hrep. now apply replace_scan_leftmost.
Qed.

Lemma health_alias_step_witness :
  (contains "stroke" "stroke risk" = false ->
     apply_health "stroke risk" ("stroke", "STROKE cerebrovascular") = "stroke risk") /\
  (contains "stroke" "stroke risk" = true ->
     apply_health "stroke risk" ("stroke", "STROKE cerebrovascular")
     = replace "stroke" "STROKE cerebrovascular" "stroke risk" /\
     contains "STROKE cerebrovascular"
       (apply_health "stroke risk" ("stroke", "STROKE cerebrovascular")) = true) /\
  (forall x y : string,
     "stroke risk" = (x ++ "stroke" ++ y)%string ->
     no_match_before "stroke" (String.length x) "stroke risk" = true ->
     apply_health "stroke risk" ("stroke", "STROKE cerebrovascular")
     = (x ++ "STROKE cerebrovascular" ++ replace "stroke" "STROKE cerebrovascular" y)%string).
Proof.
  apply (health_alias_step "stroke risk" "stroke" "STROKE cerebrovascular").
  unfold health_mapping. simpl. tauto.
Defined.

(** ** What a token is made of *)

Section TokenShape.

Lemma lowered_alpha (c : ascii) :
  lowered c = true -> is_alpha c = true -> is_lower_letter c = true.
Proof.
  destruct c as [b0 b1 b2 b3 b4 b5 b6 b7].
  destruct b0, b1, b2, b3, b4, b5, b6, b7; cbv; congruence.
Qed.

Lemma lower_lowered (s : string) : string_forall lowered (lower s) = true.
Proof.
  induction s as [|c s IH]; cbn [lower string_forall]; [reflexivity|].
  rewrite IH, andb_true_r. unfold lowered. rewrite lower_char_idem.
  apply Ascii.eqb_refl.
Qed.

Lemma run_lower_letters (s : string) :
  string_forall lowered s = true ->
  string_forall is_lower_letter (String.substring 0 (alpha_run s) s) = true.
Proof.
  induction s as [|c s IH]; intros H; [reflexivity|].
  cbn [string_forall] in H. apply andb_true_iff in H as [Hc Hs].
  cbn [alpha_run]. destruct (is_alpha c) eqn:Ea; [|reflexivity].
  cbn [String.substring string_forall].
  now rewrite (lowered_alpha c Hc Ea), (IH Hs).
Qed.

Lemma alpha_segments_lower_letters (s : string) :
  string_forall lowered s = true ->
  forall prev skip,
    Forall (fun seg => string_forall is_lower_letter (run_of seg) = true)
      (alpha_segments prev skip s).
Proof.
  induction s as [|c s IH]; intros H prev skip; [constructor|].
  pose proof H as Hcs. cbn [string_forall] in H. apply andb_true_iff in H as [Hc Hs].
  destruct skip as [|n]; cbn [alpha_segments]; [|now apply IH].
  destruct (is_alpha c) eqn:Ea; [|now apply IH].
  constructor; [|now apply IH].
  unfold run_of. cbn [fst snd]. now apply run_lower_letters.
Qed.

End TokenShape.

(** X15.  Every token the vectorizer indexes has at least two
    characters, all of them letters a-z: no digit, no capital, no
    underscore and no letter outside a-z is ever part of a token. *)
Theorem tokens_lower_letters (doc : string) :
  Forall (fun token => 2 <= String.length token
                       /\ string_forall is_lower_letter token = true)
    (tokenize (lower doc)).
Proof.
  unfold tokenize. rewrite findall_tokens_segments.
  apply Forall_map, Forall_forall. intros seg Hin.
  apply filter_In in Hin as [Hin Hd]. split.
  - destruct seg as [[before run] after]. unfold delimited in Hd.
    apply andb_true_iff in Hd as [Hd _]. apply andb_true_iff in Hd as [Hd _].
    now apply Nat.leb_le in Hd.
  - pose proof (alpha_segments_lower_letters (lower doc) (lower_lowered doc) None 0) as H.
    rewrite Forall_forall in H. now apply H.
Qed.

(** ** The vocabulary a fit leaves *)

Section VocabularyFacts.

Lemma filter_fst_NoDup {A : Type} (g : nat * A -> bool) (l : list (nat * A)) :
  NoDup (map fst l) -> NoDup (map fst (filter g l)).
Proof.
  induction l as [|x l IH]; intros H; [constructor|].
  cbn [map] in H. apply NoDup_cons_iff in H as [Hx H].
  cbn [filter]. destruct (g x); [|now apply IH].
  cbn [map]. constructor; [|now apply IH].
  intros Hin. apply Hx. apply in_map_iff in Hin as (y & Hy & Hin).
  apply filter_In in Hin as [Hin _]. apply in_map_iff. now exists y.
Qed.

Lemma combine_seq_NoDup {A : Type} (l : list A) (a n : nat) :
  NoDup (map fst (combine (seq a n) l)).
Proof.
  revert a l; induction n as [|n IH]; intros a l; [constructor|].
  destruct l as [|x l]; [constructor|]. cbn [seq combine map fst].
  constructor; [|apply IH].
  intros Hin. apply in_map_iff in Hin as ([i y] & Hi & Hin). cbn in Hi. subst i.
  apply in_combine_l, in_seq in Hin. lia.
Qed.

Variable argsort : list Q -> list nat.

(** [_limit_features] keeps at most [max_features] terms. *)
Lemma limit_features_length (limit n_doc : nat) (analyzed : list (list string))
  (vocabulary : list string) :
  List.length (limit_features argsort limit n_doc analyzed vocabulary) <= limit.
Proof.
  unfold limit_features. cbv zeta.
  set (passing := filter _ vocabulary).
  destruct (limit <? List.length passing) eqn:E;
    [|now apply Nat.ltb_ge in E].
  set (mask := firstn limit (argsort _)).
  rewrite length_map, <- (length_map fst).
  transitivity (List.length mask); [|unfold mask; apply firstn_le_length].
  apply NoDup_incl_length.
  - apply filter_fst_NoDup, combine_seq_NoDup.
  - intros i Hi. apply in_map_iff in Hi as (it & <- & Hin).
    apply filter_In in Hin as [_ Hin].
    apply existsb_exists in Hin as (j & Hj & Hij).
    apply Nat.eqb_eq in Hij. now subst j.
Qed.

Variable stop_words : list string.
Variable idf_weight : nat -> nat -> Q.
Variable tfidf_row : list Q -> list nat -> list Q.

(** X16.  When [add_documents] returns, the vectorizer holds a
    vocabulary that is not empty and has at most [max_features]
    features, with one weight per feature; the matrix is set, and the
    store holds at least two documents. *)
Theorem add_documents_vocabulary (docs : list Document) (self : EmbeddingRetriever) :
  returned (add_documents stop_words idf_weight tfidf_row argsort docs) self = Ok tt ->
  exists v idf X,
    fitted (vectorizer
              (state_after (add_documents stop_words idf_weight tfidf_row argsort docs) self))
    = Some v /\
    idf_ v = Some idf /\
    embeddings (state_after (add_documents stop_words idf_weight tfidf_row argsort docs) self)
    = Some X /\
    1 <= List.length (vocabulary_ v) <= max_features (vectorizer self) /\
    List.length idf = List.length (vocabulary_ v) /\
    2 <= List.length (documents self ++ docs).
Proof.
  unfold returned, state_after. rewrite add_documents_unfold. cbv zeta. unfold bind.
  set (texts := match embeddings self with
                | Some _ => map page_content (documents self ++ docs)
                | None => map page_content docs
                end).
  assert (Htexts : List.length texts <= List.length (documents self ++ docs)).
  { unfold texts. destruct (embeddings self); rewrite length_map, ?length_app; lia. }
  destruct self as [[mf fit] emb store].
  cbn [vectorizer embeddings documents max_features] in *.
  unfold fit_transform at 1 2 3. run_method.
  destruct (dedup [] (List.concat (map (analyze stop_words) texts))) as [|t ts];
    [discriminate|].
  destruct (95 * List.length texts <? 100 * 1) eqn:En; [discriminate|].
  destruct (limit_features argsort mf (List.length texts) _ _) as [|u us] eqn:Ek;
    [discriminate|].
  intros _. eexists _, _, _. split; [reflexivity|]. cbn [vocabulary_ idf_].
  split; [reflexivity|]. split; [reflexivity|]. rewrite length_map.
  apply Nat.ltb_ge in En.
  pose proof (limit_features_length mf (List.length texts)
                (map (analyze stop_words) texts)
                (sort_terms (t :: ts))) as Hlim.
  rewrite Ek in Hlim. cbn [List.length] in *. repeat split; lia.
Qed.

End VocabularyFacts.

Lemma add_documents_vocabulary_witness :
  exists v idf X,
    fitted (vectorizer
              (state_after (run_add_documents [river_0; tower_2]) (new_retriever 5000)))
    = Some v /\
    idf_ v = Some idf /\
    embeddings (state_after (run_add_documents [river_0; tower_2]) (new_retriever 5000))
    = Some X /\
    1 <= List.length (vocabulary_ v) <= max_features (vectorizer (new_retriever 5000)) /\
    List.length idf = List.length (vocabulary_ v) /\
    2 <= List.length (documents (new_retriever 5000) ++ [river_0; tower_2]).
Proof.
  apply (add_documents_vocabulary stable_argsort stop_words_excerpt unit_idf count_row
           [river_0; tower_2] (new_retriever 5000)).
  vm_compute. reflexivity.
Defined.

(** ** Rows of a CSV file *)

Example row_document_bridge :
  row_document "rows.csv" "1" [("Name", Some "river bridge"); ("Built", Some "1931")]
  = mkDocument "Name: river bridge | Built: 1931"
      [("source", "rows.csv"); ("row_index", "1"); ("Name", "river bridge"); ("Built", "1931")].
Proof. reflexivity. Qed.

Section RowFacts.

Local Open Scope string_scope.

Lemma dict_get_set (k key value : string) (d : list (string * string)) :
  dict_get k (dict_set key value d)
  = if String.eqb key k then Some value else dict_get k d.
Proof.
  induction d as [|[k' v'] d IH]; cbn [dict_set dict_get].
  - destruct (String.eqb key k); reflexivity.
  - destruct (String.eqb k' key) eqn:E; cbn [dict_get].
    + apply String.eqb_eq in E; subst k'.
      destruct (String.eqb key k); reflexivity.
    + rewrite IH. destruct (String.eqb k' k) eqn:E'; [|reflexivity].
      apply String.eqb_eq in E'; subst k'. rewrite String.eqb_sym. now rewrite E.
Qed.

Lemma dict_set_fresh (key value : string) (d : list (string * string)) :
  ~ In key (map fst d) -> dict_set key value d = (d ++ [(key, value)])%list.
Proof.
  induction d as [|[k v] d IH]; cbn [dict_set map fst In app]; intros H.
  - reflexivity.
  - destruct (String.eqb k key) eqn:E.
    + apply String.eqb_eq in E. tauto.
    + rewrite IH by tauto. reflexivity.
Qed.

Lemma fold_row_step_lookup (col : string) (row : list cell) :
  forall acc,
    dict_get col (snd (fold_left row_step row acc))
    = match last_cell col row with
      | Some v => Some v
      | None => dict_get col (snd acc)
      end.
Proof.
  induction row as [|[c v] row IH]; intros acc; cbn [fold_left last_cell].
  - reflexivity.
  - rewrite IH. destruct (last_cell col row) as [w|]; [reflexivity|].
    unfold row_step. cbn [fst snd]. destruct v as [v|]; [|reflexivity].
    cbn [snd]. rewrite dict_get_set. destruct (String.eqb c col); reflexivity.
Qed.

(** X17.  Looking a column up in the metadata of a row's document gives
    the text of the last non-null cell of that column; for a column
    without one it gives what the provenance holds, the file path under
    [source], the index label under [row_index], and nothing otherwise.
    A column named [source] or [row_index] thus replaces the provenance. *)
Theorem row_document_lookup (file_path idx col : string) (row : list cell) :
  dict_get col (metadata (row_document file_path idx row))
  = match last_cell col row with
    | Some v => Some v
    | None => dict_get col [("source", file_path); ("row_index", idx)]
    end.
Proof.
  unfold row_document. cbn [metadata]. apply fold_row_step_lookup.
Qed.

Lemma fold_row_step_fresh (row : list cell) :
  forall acc,
    NoDup (map fst (present row)) ->
    (forall k, In k (map fst (present row)) -> ~ In k (map fst (snd acc))) ->
    fold_left row_step row acc
    = ((fst acc ++ map (fun kv => (fst kv ++ ": " ++ snd kv)%string) (present row))%list,
       (snd acc ++ present row)%list).
Proof.
  induction row as [|[c v] row IH]; intros [parts md] Hnd Hfresh.
  - cbn. now rewrite !app_nil_r.
  - cbn [fold_left]. destruct v as [v|].
    + change (present ((c, Some v) :: row)) with ((c, v) :: present row) in *.
      cbn [map fst] in Hnd, Hfresh. inversion Hnd as [|? ? Hc Hnd']; subst.
      unfold row_step at 2. cbn [fst snd].
      rewrite dict_set_fresh by (apply Hfresh; now left).
      rewrite IH; cbn [fst snd].
      * cbn [map fst snd]. rewrite <- !app_assoc. reflexivity.
      * exact Hnd'.
      * intros k Hk. rewrite map_app, in_app_iff. cbn [map fst In].
        intros [Hin|[->|[]]].
        -- apply (Hfresh k); [now right|exact Hin].
        -- exact (Hc Hk).
    + change (present ((c, None) :: row)) with (present row) in *.
      unfold row_step at 2. cbn [snd]. now apply IH.
Qed.

Lemma metadata_lines_app (skipped : list string) (d1 d2 : list (string * string)) :
  metadata_lines skipped (d1 ++ d2)
  = (metadata_lines skipped d1 ++ metadata_lines skipped d2)%list.
Proof. unfold metadata_lines. now rewrite filter_app, map_app. Qed.

Lemma mem_In (t : string) (l : list string) : mem t l = true <-> In t l.
Proof.
  unfold mem. rewrite existsb_exists. split.
  - intros (x & Hx & E). apply String.eqb_eq in E. now subst.
  - intros H. exists t. split; [exact H|apply String.eqb_refl].
Qed.

Lemma metadata_lines_all (skipped : list string) (d : list (string * string)) :
  (forall k, In k (map fst d) -> ~ In k skipped) ->
  metadata_lines skipped d = map (fun kv => (fst kv ++ ": " ++ snd kv)%string) d.
Proof.
  intros H. unfold metadata_lines. f_equal.
  apply forallb_filter_id. apply forallb_forall. intros [k v] Hin.
  apply negb_true_iff. cbn [fst]. destruct (mem k skipped) eqn:E; [|reflexivity].
  apply mem_In in E. exfalso. apply (H k); [|exact E].
  apply in_map_iff. now exists (k, v).
Qed.

(** X18.  For a row whose non-null columns have distinct names, none of
    them [source] or [row_index], the metadata of the document is the
    provenance followed by the non-null cells in column order, and the
    content is the lines [format_context] shows for the document, joined
    by [" | "]. *)
Theorem row_document_shown (file_path idx : string) (row : list cell) :
  NoDup (map fst (present row)) ->
  ~ In "source" (map fst (present row)) ->
  ~ In "row_index" (map fst (present row)) ->
  let doc := row_document file_path idx row in
  metadata doc = ([("source", file_path); ("row_index", idx)] ++ present row)%list /\
  page_content doc
  = join " | " (metadata_lines ["source"; "row_index"] (metadata doc)).
Proof.
  intros Hnd Hs Hr doc. subst doc. unfold row_document.
  rewrite fold_row_step_fresh; cbn [fst snd page_content metadata app].
  - split; [reflexivity|]. f_equal.
    change ((("source", file_path) :: ("row_index", idx) :: present row))
      with ([("source", file_path); ("row_index", idx)] ++ present row)%list.
    rewrite metadata_lines_app.
    rewrite (metadata_lines_all _ (present row)).
    + reflexivity.
    + intros k Hk [<-|[<-|[]]]; tauto.
  - exact Hnd.
  - intros k Hk [<-|[<-|[]]]; tauto.
Qed.

End RowFacts.

Lemma row_document_shown_witness :
  let doc := row_document "rows.csv" "1"
               [("Name", Some "river bridge"); ("Opened", None); ("Built", Some "1931")] in
  metadata doc
  = [("source", "rows.csv"); ("row_index", "1"); ("Name", "river bridge"); ("Built", "1931")] /\
  page_content doc
  = join " | " (metadata_lines ["source"; "row_index"] (metadata doc)).
Proof.
  apply (row_document_shown "rows.csv" "1"
           [("Name", Some "river bridge"); ("Opened", None); ("Built", Some "1931")]).
  - cbn. repeat constructor; cbn; intuition discriminate.
  - cbn. intuition discriminate.
  - cbn. intuition discriminate.
Defined.

(** ** The prompt *)

Example format_3f_samples :
  map format_3f [1#2; 1638#2000; 1#3; 5#10000; 15#10000; 12#1; 0; (-1)#3]%Q
  = ["0.500"; "0.819"; "0.333"; "0.000"; "0.002"; "12.000"; "0.000"; "-0.333"].
Proof. vm_compute. reflexivity. Qed.

Section PromptFacts.

Local Open Scope string_scope.

(** A part of a joined text stands in it between two separators, once
    the text itself is put between two. *)
Lemma join_delimits (sep p : string) (parts : list string) :
  In p parts ->
  contains (sep ++ p ++ sep) (sep ++ join sep parts ++ sep) = true.
Proof.
  unfold join. induction parts as [|x xs IH]; intros Hin; [destruct Hin|].
  destruct Hin as [->|Hin].
  - destruct xs as [|y ys]; cbn [String.concat].
    + apply contains_refl.
    + apply contains_split. exists "", (String.concat sep (y :: ys) ++ sep).
      cbn [append]. rewrite !append_assoc. reflexivity.
  - destruct xs as [|y ys]; [destruct Hin|].
    specialize (IH Hin). apply contains_split in IH as (u & v & Huv).
    apply contains_split. exists (sep ++ x ++ u), v.
    change (String.concat sep (x :: y :: ys))
      with (x ++ sep ++ String.concat sep (y :: ys)).
    rewrite !append_assoc. f_equal. f_equal.
    rewrite !append_assoc in Huv. exact Huv.
Qed.

Lemma row_parts_shows (retrieved_docs : list (Document * Q)) :
  forall start i doc score,
    nth_error retrieved_docs i = Some (doc, score) ->
    In (row_header (start + i) score) (row_parts start retrieved_docs) /\
    forall key value,
      In (key, value) (metadata doc) ->
      key <> "source" -> key <> "row_index" ->
      In (key ++ ": " ++ value) (row_parts start retrieved_docs).
Proof.
  induction retrieved_docs as [|[d s] rest IH]; intros start i doc score H.
  - destruct i; discriminate.
  - destruct i as [|i]; cbn [nth_error] in H; cbn [row_parts].
    + injection H as -> ->. rewrite Nat.add_0_r. split; [now left|].
      intros key value Hin Hs Hr. right. apply in_or_app. left.
      unfold metadata_lines. apply in_map_iff. exists (key, value).
      split; [reflexivity|]. apply filter_In. split; [exact Hin|].
      cbn. destruct (String.eqb_spec key "source"); [contradiction|].
      destruct (String.eqb_spec key "row_index"); [contradiction|].
      reflexivity.
    + destruct (IH (S start) i doc score H) as [Hh Hl].
      replace (start + S i) with (S start + i) by lia.
      split.
      * right. apply in_or_app. now right.
      * intros key value Hin Hs Hr. right. apply in_or_app. right.
        now apply Hl.
Qed.

Lemma format_context_part (retrieved_docs : list (Document * Q)) (query : string)
  (yaml_metadata : option (list (string * string))) (p : string) :
  In p (context_parts retrieved_docs yaml_metadata) ->
  contains (nl ++ p ++ nl) (format_context retrieved_docs query yaml_metadata) = true.
Proof.
  intros Hin. unfold format_context.
  do 8 apply contains_append_r.
  apply contains_trans
    with (nl ++ join nl (context_parts retrieved_docs yaml_metadata) ++ nl).
  - now apply join_delimits.
  - apply contains_split. eexists "", _.
    cbn [append]. rewrite !append_assoc. reflexivity.
Qed.

(** X19.  The prompt holds the question, and for the row at position
    [i] of the retrieved list a header with the number [i + 1] and the
    score in three decimals, after an empty line, and one line
    [key: value] for every entry of the row's metadata other than
    [source] and [row_index]. *)
Theorem format_context_shows (retrieved_docs : list (Document * Q)) (query : string)
  (yaml_metadata : option (list (string * string)))
  (i : nat) (doc : Document) (score : Q) :
  nth_error retrieved_docs i = Some (doc, score) ->
  let prompt := format_context retrieved_docs query yaml_metadata in
  contains ("User Question: " ++ query ++ nl) prompt = true /\
  contains (nl ++ nl ++ "--- Row " ++ str_nat (S i) ++ " (Relevance: "
              ++ format_3f score ++ ") ---" ++ nl) prompt = true /\
  forall key value,
    In (key, value) (metadata doc) ->
    key <> "source" -> key <> "row_index" ->
    contains (nl ++ key ++ ": " ++ value ++ nl) prompt = true.
Proof.
  intros H prompt. subst prompt.
  destruct (row_parts_shows retrieved_docs 1 i doc score H) as [Hh Hl].
  split; [|split].
  - unfold format_context. do 3 apply contains_append_r.
    apply contains_split. eexists "", _.
    cbn [append]. rewrite !append_assoc. reflexivity.
  - pose proof (format_context_part retrieved_docs query yaml_metadata
                  (row_header (1 + i) score)) as Hp.
    unfold row_header in Hp. rewrite !append_assoc in Hp.
    apply Hp. unfold context_parts. apply in_or_app. right. right.
    unfold row_header in Hh. exact Hh.
  - intros key value Hin Hs Hr.
    pose proof (format_context_part retrieved_docs query yaml_metadata
                  (key ++ ": " ++ value)) as Hp.
    rewrite !append_assoc in Hp. apply Hp.
    unfold context_parts. apply in_or_app. right. right. now apply Hl.
Qed.

End PromptFacts.

Lemma format_context_shows_witness :
  let doc := row_document "rows.csv" "1"
               [("Name", Some "river bridge"); ("Built", Some "1931")] in
  let prompt := format_context [(doc, 1638 # 2000)] "bridges" None in
  contains ("User Question: bridges" ++ nl) prompt = true /\
  contains (nl ++ nl ++ "--- Row 1 (Relevance: 0.819) ---" ++ nl) prompt = true /\
  forall key value,
    In (key, value) (metadata doc) ->
    key <> "source" -> key <> "row_index" ->
    contains (nl ++ key ++ ": " ++ value ++ nl) prompt = true.
Proof.
  exact (format_context_shows
           [(row_document "rows.csv" "1"
               [("Name", Some "river bridge"); ("Built", Some "1931")], 1638 # 2000)]
           "bridges" None 0 _ _ eq_refl).
Defined.

Section ScoreFormat.

Local Open Scope string_scope.

Lemma round_half_even_near (num den : Z) :
  (0 <= num)%Z -> (0 < den)%Z ->
  (0 <= round_half_even num den)%Z /\
  (2 * (round_half_even num den * den) <= 2 * num + den)%Z /\
  (2 * num <= 2 * (round_half_even num den * den) + den)%Z.
Proof.
  intros Hn Hd. unfold round_half_even.
  pose proof (Z.div_mod num den ltac:(lia)) as Hdm.
  pose proof (Z.mod_pos_bound num den Hd) as Hm.
  pose proof (Z.div_pos num den Hn Hd) as Hq.
  set (q := (num / den)%Z) in *. set (r := (num mod den)%Z) in *.
  destruct (Z.ltb_spec (2 * r) den); [nia|].
  destruct (Z.ltb_spec den (2 * r)); [nia|].
  destruct (Z.even q); nia.
Qed.

Lemma str_nat_reads (n : nat) : read_nat (str_nat n) = Some n.
Proof.
  unfold read_nat, str_nat. rewrite NilEmpty.usu. cbn [option_map].
  now rewrite DecimalNat.Unsigned.of_to.
Qed.

Lemma pad3_reads (n : nat) :
  n < 1000 -> String.length (pad3 n) = 3 /\ read_nat (pad3 n) = Some n.
Proof.
  intros Hn.
  assert (Hall : forallb
            (fun n => Nat.eqb (String.length (pad3 n)) 3
                      && match read_nat (pad3 n) with
                         | Some m => Nat.eqb m n
                         | None => false
                         end)
            (seq 0 1000) = true) by (vm_compute; reflexivity).
  rewrite forallb_forall in Hall.
  specialize (Hall n ltac:(apply in_seq; lia)).
  apply andb_true_iff in Hall as [Hl Hr]. apply Nat.eqb_eq in Hl.
  split; [exact Hl|].
  destruct (read_nat (pad3 n)) as [m|]; [|discriminate].
  apply Nat.eqb_eq in Hr. now subst.
Qed.

(** X20.  The relevance a row is shown with is the score rounded to the
    nearest thousandth: after the sign come the integer part, a point and
    exactly three digits, and the number the digits denote is within half
    a thousandth of the absolute value of the score. *)
Theorem format_3f_reads_back (score : Q) :
  exists (whole frac : string) (w f : nat),
    format_3f score
    = (if (Qnum score <? 0)%Z then "-" else "") ++ whole ++ "." ++ frac /\
    String.length frac = 3 /\
    read_nat whole = Some w /\
    read_nat frac = Some f /\
    ((Z.of_nat (w * 1000 + f) # 1000) <= Qabs.Qabs score + (1 # 2000))%Q /\
    (Qabs.Qabs score <= (Z.of_nat (w * 1000 + f) # 1000) + (1 # 2000))%Q.
Proof.
  destruct score as [n d].
  pose proof (round_half_even_near (Z.abs n * 1000) (Zpos d)
                ltac:(lia) ltac:(lia)) as (Ht & Hup & Hlo).
  change (round_half_even (Z.abs n * 1000) (Z.pos d))
    with (thousandths (n # d)) in Ht, Hup, Hlo.
  unfold format_3f. cbv zeta.
  set (t := thousandths (n # d)) in *.
  pose proof (Z.div_mod t 1000 ltac:(lia)) as Hdm.
  pose proof (Z.mod_pos_bound t 1000 ltac:(lia)) as Hm.
  pose proof (Z.div_pos t 1000 Ht ltac:(lia)) as Hq.
  destruct (pad3_reads (Z.to_nat (t mod 1000)) ltac:(lia)) as [Hlen Hread].
  exists (str_nat (Z.to_nat (t / 1000))), (pad3 (Z.to_nat (t mod 1000))),
    (Z.to_nat (t / 1000)), (Z.to_nat (t mod 1000)).
  split; [reflexivity|]. split; [exact Hlen|].
  split; [apply str_nat_reads|]. split; [exact Hread|].
  assert (E : Z.of_nat (Z.to_nat (t / 1000) * 1000 + Z.to_nat (t mod 1000)) = t) by lia.
  rewrite E.
  unfold Qle, Qplus, Qabs.Qabs. cbn [Qnum Qden].
  rewrite ?Pos2Z.inj_mul.
  clear Hdm Hm Hq Hlen Hread E. clearbody t.
  split; lia.
Qed.

End ScoreFormat.

(** ** Rows that cannot be told apart *)

Section UniformFacts.

Variable stop_words : list string.
Variable idf_weight : nat -> nat -> Q.
Variable tfidf_row : list Q -> list nat -> list Q.
Variable argsort : list Q -> list nat.

Lemma insert_term_In (t u : string) (sorted : list string) :
  In t (insert_term u sorted) -> t = u \/ In t sorted.
Proof.
  induction sorted as [|x xs IH]; cbn [insert_term In].
  - intros [->|[]]. now left.
  - destruct (String.leb u x); cbn [In].
    + intros [->|[->|H]]; auto.
    + intros [->|H]; auto. destruct (IH H); auto.
Qed.

Lemma sort_terms_In (t : string) (terms : list string) :
  In t (sort_terms terms) -> In t terms.
Proof.
  induction terms as [|u us IH]; cbn [sort_terms fold_right]; [tauto|].
  intros H. apply insert_term_In in H as [->|H]; [now left|right; now apply IH].
Qed.

Lemma dedup_In (t : string) (terms : list string) :
  forall seen, In t (dedup seen terms) -> In t terms.
Proof.
  induction terms as [|u us IH]; intros seen; cbn [dedup]; [tauto|].
  destruct (mem u seen).
  - intros H. right. now apply (IH seen).
  - intros [->|H]; [now left|right; now apply (IH _ H)].
Qed.

Lemma concat_repeat_In (t : string) (a : list string) (n : nat) :
  In t (List.concat (repeat a n)) -> In t a.
Proof.
  induction n as [|n IH]; cbn [repeat List.concat]; [intros []|].
  rewrite in_app_iff. tauto.
Qed.

Lemma document_frequency_repeat (t : string) (a : list string) (n : nat) :
  In t a -> document_frequency t (repeat a n) = n.
Proof.
  intros H. unfold document_frequency.
  induction n as [|n IH]; cbn [repeat filter]; [reflexivity|].
  apply mem_In in H. rewrite H. cbn [List.length]. now rewrite IH.
Qed.

Lemma limit_features_uniform (limit n : nat) (a vocabulary : list string) :
  0 < n ->
  (forall t, In t vocabulary -> In t a) ->
  limit_features argsort limit n (repeat a n) vocabulary = [].
Proof.
  intros Hn Hv. unfold limit_features.
  assert (E : filter
                (fun t => (100 * document_frequency t (repeat a n) <=? 95 * n)
                          && (1 <=? document_frequency t (repeat a n)))
                vocabulary = []).
  { induction vocabulary as [|t ts IH]; [reflexivity|].
    cbn [filter]. rewrite document_frequency_repeat by (apply Hv; now left).
    replace (100 * n <=? 95 * n) with false
      by (symmetry; apply Nat.leb_gt; lia).
    cbn [andb]. apply IH. intros u Hu. apply Hv. now right. }
  rewrite E. cbn [List.length]. destruct limit; reflexivity.
Qed.

Lemma map_uniform {A B : Type} (f : A -> B) (b : B) (l : list A) :
  (forall x, In x l -> f x = b) -> map f l = repeat b (List.length l).
Proof.
  induction l as [|x xs IH]; intros H; cbn [map repeat List.length]; [reflexivity|].
  rewrite (H x) by now left. f_equal. apply IH. intros y Hy. apply H. now right.
Qed.

Lemma fit_transform_uniform (content : string) (n : nat) (self : EmbeddingRetriever) :
  exists msg self',
    fit_transform stop_words idf_weight tfidf_row argsort (repeat content n) self
    = (Raise (ValueError msg), self').
Proof.
  destruct self as [[mf fit] emb docs]. run_method.
  rewrite map_repeat, repeat_length.
  destruct (dedup [] (List.concat (repeat (analyze stop_words content) n)))
    as [|t ts] eqn:Ev; [eexists _, _; reflexivity|].
  destruct (95 * n <? 100 * 1) eqn:En; [eexists _, _; reflexivity|].
  rewrite limit_features_uniform.
  - eexists _, _; reflexivity.
  - apply Nat.ltb_ge in En. lia.
  - intros u Hu. apply sort_terms_In in Hu. rewrite <- Ev in Hu.
    apply dedup_In in Hu. now apply concat_repeat_In in Hu.
Qed.

(** X21.  Rows that all have the same content cannot be indexed: when
    every document of the store and of the batch has one and the same
    content, [add_documents] raises [ValueError], because every term
    occurs in all the documents and [max_df=0.95] prunes it.  One
    document alone is such a batch. *)
Theorem add_documents_same_content (content : string) (docs : list Document)
  (self : EmbeddingRetriever) :
  (forall d, In d (documents self ++ docs) -> page_content d = content) ->
  exists msg,
    returned (add_documents stop_words idf_weight tfidf_row argsort docs) self
    = Raise (ValueError msg).
Proof.
  intros H. unfold returned. rewrite add_documents_unfold. cbv zeta.
  assert (Htexts : exists n,
            match embeddings self with
            | None => map page_content docs
            | Some _ => map page_content (documents self ++ docs)
            end = repeat content n).
  { destruct (embeddings self).
    - eexists. apply map_uniform. exact H.
    - eexists. apply map_uniform. intros d Hd. apply H.
      apply in_or_app. now right. }
  destruct Htexts as [n ->]. unfold bind.
  destruct (fit_transform_uniform content n
              {| vectorizer := vectorizer self; embeddings := embeddings self;
                 documents := documents self ++ docs |}) as (msg & self' & ->).
  exists msg. reflexivity.
Qed.

End UniformFacts.

Lemma add_documents_same_content_witness :
  exists msg,
    returned (run_add_documents [river_0; river_1]) (new_retriever 5000)
    = Raise (ValueError msg).
Proof.
  apply (add_documents_same_content stop_words_excerpt unit_idf count_row
           stable_argsort "Name: river bridge" [river_0; river_1] (new_retriever 5000)).
  intros d [<-|[<-|[]]]; reflexivity.
Defined.

(** ** [main] *)

Section MainFacts.

Variable stop_words : list string.
Variable idf_weight : nat -> nat -> Q.
Variable tfidf_row : list Q -> list nat -> list Q.
Variable cosine : list Q -> list Q -> Q.
Variable argsort : list Q -> list nat.

(** X22.  The prompt of [main] never has the section of dataset
    metadata: whether a file stands at the path of the metadata or not,
    [main] gives the same result, since [load_yaml_metadata] returns an
    empty dictionary and [format_context] passes over an empty one. *)
Theorem main_ignores_sidecar (path_exists : string -> bool)
  (csv_file question : string) (top_k : Z) (df : result frame) :
  main stop_words idf_weight tfidf_row cosine argsort path_exists
    csv_file question top_k df
  = main stop_words idf_weight tfidf_row cosine argsort (fun _ => false)
      csv_file question top_k df.
Proof.
  unfold main. destruct (path_exists (yaml_file csv_file)); reflexivity.
Qed.

Lemma fit_transform_raises (raw : list string) (self self' : EmbeddingRetriever)
  (e : exn) :
  fit_transform stop_words idf_weight tfidf_row argsort raw self = (Raise e, self') ->
  exists msg, e = ValueError msg.
Proof.
  destruct self as [[mf fit] emb docs]. run_method.
  destruct (dedup [] (List.concat (map (analyze stop_words) raw))) as [|t ts].
  { intros H; inversion H. eexists; reflexivity. }
  destruct (95 * List.length raw <? 100 * 1).
  { intros H; inversion H. eexists; reflexivity. }
  destruct (limit_features argsort mf (List.length raw) _ _) as [|u us].
  { intros H; inversion H. eexists; reflexivity. }
  discriminate.
Qed.

Lemma add_documents_raises (docs : list Document) (self : EmbeddingRetriever) (e : exn) :
  returned (add_documents stop_words idf_weight tfidf_row argsort docs) self = Raise e ->
  exists msg, e = ValueError msg.
Proof.
  unfold returned. rewrite add_documents_unfold. cbv zeta. unfold bind.
  destruct (fit_transform _ _ _ _ _ _) as [[X|e'] self'] eqn:Efit; cbn [fst].
  - discriminate.
  - intros H; inversion H; subst. eapply fit_transform_raises. exact Efit.
Qed.

(** X23.  What [main] can come to, when a row of the matrix has one entry
    per feature: nothing when no row was read; otherwise either the
    retrieved rows with a prompt that has no section of dataset metadata,
    or a [ValueError], which is the one the fit raises.  Retrieval itself
    never fails in [main]. *)
Theorem main_outcomes (path_exists : string -> bool)
  (csv_file question : string) (top_k : Z) (df : result frame) :
  (forall idf counts, List.length (tfidf_row idf counts) = List.length counts) ->
  match load_csv csv_file df with
  | [] =>
      main stop_words idf_weight tfidf_row cosine argsort path_exists
        csv_file question top_k df = Ok None
  | _ :: _ =>
      (exists results,
         main stop_words idf_weight tfidf_row cosine argsort path_exists
           csv_file question top_k df
         = Ok (Some (results, format_context results question None))) \/
      (exists msg,
         main stop_words idf_weight tfidf_row cosine argsort path_exists
           csv_file question top_k df
         = Raise (ValueError msg))
  end.
Proof.
  intros Hrow.
  assert (Hfmt : forall results,
            format_context results question
              (if path_exists (yaml_file csv_file)
               then Some (load_yaml_metadata (yaml_file csv_file))
               else None)
            = format_context results question None)
    by (intros results; destruct (path_exists _); reflexivity).
  unfold main. cbv zeta.
  destruct (load_csv csv_file df) as [|d ds]; [reflexivity|].
  pose proof (add_documents_raises (d :: ds) (new_retriever 5000)) as Hraise.
  pose proof (add_documents_ready stop_words idf_weight tfidf_row argsort (d :: ds)
                (new_retriever 5000) Hrow eq_refl) as Hready.
  unfold returned, state_after in *. unfold main_core, bind.
  destruct (add_documents stop_words idf_weight tfidf_row argsort (d :: ds)
              (new_retriever 5000)) as [[[]|e] self1]; cbn [fst snd] in *.
  - left. specialize (Hready eq_refl).
    destruct (retrieve_ready stop_words tfidf_row cosine argsort question top_k
                self1 Hrow Hready) as [results Hres].
    unfold returned in Hres.
    destruct (retrieve stop_words tfidf_row cosine argsort question top_k self1)
      as [r self2]. cbn [fst] in Hres. subst r.
    exists results. unfold ret. cbn [fst]. now rewrite Hfmt.
  - right. destruct (Hraise e eq_refl) as [msg ->]. exists msg. reflexivity.
Qed.

(** X24.  A path without the text [.csv] is its own metadata path:
    [main] then looks for the metadata in the CSV file itself. *)
Theorem yaml_file_without_csv (csv_file : string) :
  contains ".csv" csv_file = false -> yaml_file csv_file = csv_file.
Proof. intros H. unfold yaml_file, replace. now apply replace_scan_absent. Qed.

(** X25.  Every occurrence of [.csv] in the path is rewritten, not only
    the extension: where the leftmost one stands, [.yaml] takes its
    place, what is before it stays, and the rest of the path is rewritten
    in the same way. *)
Theorem yaml_file_every_occurrence (x y : string) :
  no_match_before ".csv" (String.length x) (x ++ ".csv" ++ y)%string = true ->
  yaml_file (x ++ ".csv" ++ y) = (x ++ ".yaml" ++ yaml_file y)%string.
Proof.
  intros H. unfold yaml_file, replace.
  apply replace_scan_leftmost; [discriminate|exact H].
Qed.

End MainFacts.

Example main_bridges :
  exists prompt,
    run_main (fun _ => true) "rows.csv" "river" 1 (Ok bridges)
    = Ok (Some ([(row_document "rows.csv" "1"
                    [("Name", Some "river bridge"); ("Built", Some "1931")],
                  1%Q)], prompt)) /\
    contains "--- Row 1 (Relevance: 1.000) ---" prompt = true /\
    contains "=== Dataset Metadata ===" prompt = false.
Proof. eexists. split; [vm_compute; reflexivity|]. split; vm_compute; reflexivity. Qed.

Lemma main_outcomes_witness :
  match load_csv "rows.csv" (Ok bridges) with
  | [] => run_main (fun _ => true) "rows.csv" "river" 5 (Ok bridges) = Ok None
  | _ :: _ =>
      (exists results,
         run_main (fun _ => true) "rows.csv" "river" 5 (Ok bridges)
         = Ok (Some (results, format_context results "river" None))) \/
      (exists msg,
         run_main (fun _ => true) "rows.csv" "river" 5 (Ok bridges)
         = Raise (ValueError msg))
  end.
Proof.
  apply (main_outcomes stop_words_excerpt unit_idf count_row dot stable_argsort
           (fun _ => true) "rows.csv" "river" 5 (Ok bridges)).
  exact count_row_length.
Defined.

Lemma yaml_file_without_csv_witness :
  contains ".csv" "rows.CSV" = false /\ yaml_file "rows.CSV" = "rows.CSV".
Proof.
  split; [reflexivity|]. apply (yaml_file_without_csv "rows.CSV"). reflexivity.
Defined.

Lemma yaml_file_every_occurrence_witness :
  yaml_file ("data" ++ ".csv" ++ ".d/rows.csv") = ("data" ++ ".yaml" ++ ".d/rows.yaml")%string.
Proof.
  apply (yaml_file_every_occurrence "data" ".d/rows.csv"). reflexivity.
Defined.
